(** * The workflow orchestrator of [examples-medium/multi_tool_orchestrator.py]

    A shallow embedding of [ToolOrchestrator] and of the [handle_call_tool]
    handler, and the properties of workflow execution: step sequencing,
    placeholder resolution, error propagation, registration. *)

From Stdlib Require Import ZArith Floats.SpecFloat.
From stdpp Require Import gmap strings list fin_maps.

(** ** Python values *)

(** The values that travel through the orchestrator are what the JSON
    decoder produces ([None], [bool], [int], [float], [str], [list],
    [dict] with string keys).  A [float] is kept as its IEEE 754 datum; the
    orchestrator never computes with it. *)
Set Warnings "-register-all".
Inductive value : Type :=
| VNone
| VBool (b : bool)
| VInt (n : Z)
| VFloat (f : spec_float)
| VStr (s : string)
| VList (l : list value)
| VDict (d : gmap string value).
Set Warnings "register-all".

(** A Python [dict] with string keys. *)
Abbreviation dict := (gmap string value).

Module Str.

(** Strings are sequences of bytes here and of code points in Python.  The
    two agree on the tests below: a brace is one byte, and no byte of a
    longer UTF-8 character equals it. *)

(** [s.startswith(p)] *)
Definition startswith (s p : string) : bool := String.prefix p s.

(** [s.endswith(p)] *)
Definition endswith (s p : string) : bool :=
  bool_decide (String.length p ≤ String.length s)
  && String.eqb (String.substring (String.length s - String.length p)
                                  (String.length p) s) p.

(** [s[1:-1]]: the slice from index 1 up to, and without, the last
    character; empty when [s] has fewer than three characters. *)
Definition strip_ends (s : string) : string :=
  String.substring 1 (String.length s - 2) s.

End Str.

(** ** Workflow definitions *)

(** A step is a JSON object.  The input schema of [create_custom_workflow]
    gives it the properties [tool] (a string) and [params] (an object) and
    requires neither, so either may be missing; [step["tool"]] and
    [step["params"]] raise [KeyError] then. *)
Record step : Type := Step {
  tool : option string;
  params : option dict
}.

(** [{"tool": t, "params": p}] *)
Definition mk_step (t : string) (p : dict) : step :=
  {| tool := Some t; params := Some p |}.

(** [self.workflows] as [ToolOrchestrator.__init__] builds it. *)
Definition builtin_workflows : gmap string (list step) :=
  <["morning_briefing" := [
      mk_step "get_calendar_events" {["days" := VInt 1]};
      mk_step "check_github_notifications" ∅;
      mk_step "get_weather" ∅;
      mk_step "check_ci_status" {["repos" := VList [VStr "main-project"]]} ]]>
  (<["deploy_checklist" := [
      mk_step "run_tests" {["suite" := VStr "all"]};
      mk_step "check_code_coverage" {["threshold" := VInt 80]};
      mk_step "lint_code" ∅;
      mk_step "check_dependencies" {["security" := VBool true]};
      mk_step "generate_changelog" ∅ ]]>
  (<["research_assistant" := [
      mk_step "search_arxiv" (<["query" := VStr "{query}"]> {["limit" := VInt 5]});
      mk_step "summarize_papers" {["papers" := VStr "{arxiv_results}"]};
      mk_step "find_implementations" {["papers" := VStr "{arxiv_results}"]};
      mk_step "create_reading_list" {["summaries" := VStr "{summaries}"]} ]]>
  ∅)).

(** ** Parameter resolution *)

(** The body of the inner loop of [execute_workflow] (lines 45 to 52), for
    one [key, value] of [step["params"].items()]: the new [params]. *)
Definition resolve_param (context results : dict)
    (key : string) (value : value) (params : dict) : dict :=
  match value with
  | VStr s =>
      if Str.startswith s "{" && Str.endswith s "}" then
        let param_name := Str.strip_ends s in
        match context !! param_name with
        | Some v => <[key := v]> params
        | None =>
            match results !! param_name with
            | Some v => <[key := v]> params
            | None => params
            end
        end
      else <[key := value]> params
  | _ => <[key := value]> params
  end.

(** The inner loop: [params = {}], then the body for every item. *)
Definition resolve_params (context results step_params : dict) : dict :=
  map_fold (resolve_param context results) ∅ step_params.

(** ** Effects: exceptions, the store, the tool calls *)

Section Orchestrator.

(** What the tools act on (the network, the services behind them) and what
    they raise.  [execute_tool] is [ToolOrchestrator.execute_tool]; the
    source marks its body as a stand-in ("Tool implementations would go
    here", "implement other tools"), so execution is studied for every such
    function.  Like that body, it acts on the world only: it writes
    neither to the dicts it is handed nor to the orchestrator. *)
Context {World ToolExn : Type}.
Variable execute_tool :
  string → dict → World → (ToolExn + value) * World.

(** The exceptions that can leave [execute_workflow]. *)
Inductive exn : Type :=
| ValueError (msg : string)
| KeyError (key : string)
| ToolFailure (e : ToolExn).

(** One invocation of [execute_tool]: its arguments and how it ended. *)
Record call : Type := Call {
  call_tool : string;
  call_params : dict;
  call_outcome : ToolExn + value
}.

(** The objects a run can reach.  [workflows] is [self.workflows];
    [context] is the dict bound to the parameter [context], which Python
    passes by reference; [calls] logs the invocations of [execute_tool],
    oldest first. *)
Record store : Type := Store {
  workflows : gmap string (list step);
  context : dict;
  world : World;
  calls : list call
}.

(** A computation that reads and writes the store and may raise.  What it
    did to the store before raising stays done. *)
Definition M (A : Type) : Type := store → (exn + A) * store.

Definition ret {A} (a : A) : M A := λ st, (inr a, st).

Definition bind {A B} (m : M A) (k : A → M B) : M B :=
  λ st, match m st with
        | (inr a, st') => k a st'
        | (inl e, st') => (inl e, st')
        end.

Definition raise {A} (e : exn) : M A := λ st, (inl e, st).

Definition gets {A} (f : store → A) : M A := λ st, (inr (f st), st).

#[local] Instance M_ret : MRet M := @ret.
#[local] Instance M_bind : MBind M := λ A B k m, bind m k.

(** [d[key]] on a JSON object of which [field] is the entry [key]. *)
Definition subscript {A} (field : option A) (key : string) : M A :=
  match field with
  | Some a => ret a
  | None => raise (KeyError key)
  end.

(** The store [execute_workflow] runs the steps in: [st] with the
    parameter [context] bound to [ctx]. *)
Definition entry_store (ctx : dict) (st : store) : store :=
  {| workflows := workflows st; context := ctx;
     world := world st; calls := calls st |}.

(** Binding the parameter [context] at a call. *)
Definition bind_context (ctx : dict) : M unit :=
  λ st, (inr tt, entry_store ctx st).

(** [self.workflows[name] = steps] *)
Definition set_workflow (name : string) (steps : list step) : M unit :=
  λ st, (inr tt, {| workflows := <[name := steps]> (workflows st);
                    context := context st;
                    world := world st; calls := calls st |}).

(** [await self.execute_tool(tool_name, params)] *)
Definition await_execute_tool (tool_name : string) (params : dict) : M value :=
  λ st,
    let (outcome, w) := execute_tool tool_name params (world st) in
    let st' := {| workflows := workflows st; context := context st;
                  world := w;
                  calls := calls st ++ [Call tool_name params outcome] |} in
    match outcome with
    | inr v => (inr v, st')
    | inl e => (inl (ToolFailure e), st')
    end.

(** ** [ToolOrchestrator.execute_workflow] *)

(** The body of the outer loop (lines 42 to 56): the new [results]. *)
Definition run_step (s : step) (results : dict) : M dict :=
  step_params ← subscript (params s) "params";
  ctx ← gets context;
  let params := resolve_params ctx results step_params in
  tool_name ← subscript (tool s) "tool";
  result ← await_execute_tool tool_name params;
  ret (<[tool_name := result]> results).

(** [for step in workflow: ...] *)
Fixpoint run_steps (workflow : list step) (results : dict) : M dict :=
  match workflow with
  | [] => ret results
  | s :: rest => results' ← run_step s results; run_steps rest results'
  end.

Definition execute_workflow (workflow_name : string) (ctx : dict) : M dict :=
  _ ← bind_context ctx;
  registry ← gets workflows;
  match registry !! workflow_name with
  | None => raise (ValueError ("Unknown workflow: " +:+ workflow_name))
  | Some workflow => run_steps workflow ∅
  end.

(** ** [handle_call_tool] *)

(** [str(d)] of a dict, as the f-string of line 124 prints it.  Python
    prints the entries in the order they were inserted in, which a [gmap]
    does not keep: the text is a parameter, and nothing below depends on
    it. *)
Variable repr : dict → string.

Record TextContent : Type := Text { type : string; text : string }.

(** The [arguments] of a tool call: a JSON object with the properties the
    two input schemas declare. *)
Record arguments : Type := Arguments {
  arg_workflow : option string;
  arg_context : option dict;
  arg_name : option string;
  arg_steps : option (list step)
}.

Definition handle_call_tool (name : string) (args : arguments)
    : M (list TextContent) :=
  if String.eqb name "execute_workflow" then
    workflow ← subscript (arg_workflow args) "workflow";
    result ← execute_workflow workflow (default ∅ (arg_context args));
    let text := "Workflow '" +:+ workflow +:+ "' executed. Results: "
                +:+ repr result in
    ret [Text "text" text]
  else if String.eqb name "create_custom_workflow" then
    steps ← subscript (arg_steps args) "steps";
    wname ← subscript (arg_name args) "name";
    _ ← set_workflow wname steps;
    ret [Text "text" ("Created workflow: " +:+ wname)]
  else
    ret [Text "text" ("Unknown tool: " +:+ name)].

(** ** Reading the log of a run *)

(** The invocations made between the store [st] and the later store [st']. *)
Definition new_calls (st st' : store) : list call :=
  drop (length (calls st)) (calls st').

(** What line 56, [results[step["tool"]] = result], does with the value a
    call returned; a call that raised records nothing. *)
Definition record (results : dict) (c : call) : dict :=
  match call_outcome c with
  | inr v => <[call_tool c := v]> results
  | inl _ => results
  end.

(** The [results] dict after the calls [cs], starting from [results]. *)
Definition record_all (cs : list call) (results : dict) : dict :=
  foldl record results cs.

(** What the log [new] of [run_steps workflow results] from the store [st]
    looks like, when the run ended in [r] and the store [st']: the store
    only gained the log; call [i] is the call of step [i], made with the
    parameters resolved against the results recorded before it; a call that
    raised is the last one and its exception is the outcome of the run; a
    run that returns made one call per step and returns what they
    recorded; a run that stopped before the call of a step did so because
    the last call raised or because the step lacks a field. *)
Definition run_log (workflow : list step) (results : dict) (st : store)
    (r : exn + dict) (st' : store) (new : list call) : Prop :=
  calls st' = calls st ++ new
  ∧ workflows st' = workflows st
  ∧ context st' = context st
  ∧ length new ≤ length workflow
  ∧ (∀ i c, new !! i = Some c →
       ∃ s sp, workflow !! i = Some s
         ∧ tool s = Some (call_tool c)
         ∧ params s = Some sp
         ∧ call_params c =
             resolve_params (context st) (record_all (take i new) results) sp)
  ∧ (∀ i c e, new !! i = Some c → call_outcome c = inl e →
       r = inl (ToolFailure e) ∧ length new = S i)
  ∧ (∀ res, r = inr res →
       length new = length workflow ∧ res = record_all new results)
  ∧ (∀ s, workflow !! length new = Some s →
       (∃ c e, last new = Some c ∧ call_outcome c = inl e)
       ∨ params s = None ∨ tool s = None).

(** The call returned a value. *)
Definition succeeded (c : call) : bool :=
  match call_outcome c with
  | inr _ => true
  | inl _ => false
  end.

End Orchestrator.

Arguments Call {ToolExn} _ _ _.
Arguments ValueError {ToolExn} _.
Arguments KeyError {ToolExn} _.
Arguments ToolFailure {ToolExn} _.

(** What one parameter value resolves to, [None] when the parameter is
    dropped: the three outcomes of [resolve_param] read as a function. *)
Definition resolve_value (context results : dict) (v : value) : option value :=
  match v with
  | VStr s =>
      if Str.startswith s "{" && Str.endswith s "}" then
        match context !! Str.strip_ends s with
        | Some x => Some x
        | None => results !! Str.strip_ends s
        end
      else Some v
  | _ => Some v
  end.

(** ** Steps as the JSON a call carries *)

(** The registry holds what [arguments["steps"]] was: a JSON value.  The
    records above are the values of the types the input schema declares
    (lines 98 to 106): an array of objects whose [tool], when present, is a
    string and whose [params], when present, is an object.  The functions
    below read a JSON value as such a list and write one back. *)

(** The entry [key] of an object, for a property of type [string]:
    [Some None] when absent, [None] when present with another type. *)
Definition string_field (d : dict) (key : string) : option (option string) :=
  match d !! key with
  | None => Some None
  | Some (VStr s) => Some (Some s)
  | Some _ => None
  end.

(** The same for a property of type [object]. *)
Definition object_field (d : dict) (key : string) : option (option dict) :=
  match d !! key with
  | None => Some None
  | Some (VDict m) => Some (Some m)
  | Some _ => None
  end.

Definition step_of_json (v : value) : option step :=
  match v with
  | VDict d =>
      match string_field d "tool", object_field d "params" with
      | Some t, Some p => Some {| tool := t; params := p |}
      | _, _ => None
      end
  | _ => None
  end.

Definition steps_of_json (v : value) : option (list step) :=
  match v with
  | VList l => mapM step_of_json l
  | _ => None
  end.

Definition json_of_step (s : step) : value :=
  VDict (match tool s with
         | Some t => <["tool" := VStr t]>
         | None => id
         end
           (match params s with
            | Some p => {["params" := VDict p]}
            | None => ∅
            end)).

Definition json_of_steps (steps : list step) : value :=
  VList (json_of_step <$> steps).

(** Line 127, [orchestrator.workflows[name] = steps], on the registry as
    Python holds it: a dict from names to JSON values. *)
Definition register_json (name : string) (steps : value)
    (registry : gmap string value) : gmap string value :=
  <[name := steps]> registry.

(** The registry [registry] of the store is the JSON registry [json]
    read entry by entry. *)
Definition represents (json : gmap string value)
    (registry : gmap string (list step)) : Prop :=
  ∀ n, option_Forall2 (λ v steps, steps_of_json v = Some steps)
         (json !! n) (registry !! n).

(** ** Tools to run the orchestrator on *)

(** A tool whose world counts the invocations served and which returns
    that count. *)
Definition counting_tool (tool_name : string) (params : dict) (n : nat)
    : (string + value) * nat :=
  (inr (VInt (Z.of_nat n)), S n).

(** As [counting_tool], but the tool [bad] raises. *)
Definition failing_tool (bad : string) (tool_name : string) (params : dict)
    (n : nat) : (string + value) * nat :=
  if String.eqb tool_name bad then (inl ("failed: " +:+ tool_name), S n)
  else counting_tool tool_name params n.

(** A tool that returns its parameter ["x"], [None] when it has none. *)
Definition echo_tool (tool_name : string) (params : dict) (n : nat)
    : (string + value) * nat :=
  (inr (default VNone (params !! "x")), S n).

(** The store of a fresh [ToolOrchestrator]. *)
Definition initial_store : @store nat string :=
  {| workflows := builtin_workflows; context := ∅; world := 0; calls := [] |}.


(** A store whose registry is [registry], before any call. *)
Definition store_of (registry : gmap string (list step)) : @store nat string :=
  {| workflows := registry; context := ∅; world := 0; calls := [] |}.

(** ** Runs to test on *)

(** The research workflow with a query that is itself in braces. *)
Definition nested_context : dict :=
  <["query" := VStr "{limit}"]> {["limit" := VInt 9]}.

Definition nested_run : (@exn string + dict) * @store nat string :=
  execute_workflow counting_tool "research_assistant" nested_context
    initial_store.

(** The deploy checklist when the linter raises. *)
Definition failing_run : (@exn string + dict) * @store nat string :=
  execute_workflow (failing_tool "lint_code") "deploy_checklist" ∅
    initial_store.

(** Step B takes the result of step A. *)
Definition chain_workflow : list step :=
  [mk_step "A" ∅; mk_step "B" {["x" := VStr "{A}"]}].

Definition chain_store : @store nat string :=
  store_of {["chain" := chain_workflow]}.

(** A tool that answers 42 as [A] and returns its parameter ["x"] under
    any other name. *)
Definition answer_tool (tool_name : string) (params : dict) (n : nat)
    : (string + value) * nat :=
  if String.eqb tool_name "A" then (inr (VInt 42), S n)
  else echo_tool tool_name params n.

Definition chain_run : (@exn string + dict) * @store nat string :=
  execute_workflow answer_tool "chain" ∅ chain_store.

(** The tool A invoked twice. *)
Definition twice_workflow : list step :=
  [mk_step "A" ∅; mk_step "B" ∅; mk_step "A" ∅].

Definition twice_store : @store nat string :=
  store_of {["twice" := twice_workflow]}.

Definition twice_run : (@exn string + dict) * @store nat string :=
  execute_workflow counting_tool "twice" ∅ twice_store.

(** A parameter that is the two braces alone, and a context with the empty
    key. *)
Definition braces_workflow : list step :=
  [mk_step "T" {["x" := VStr "{}"]}].

Definition braces_store : @store nat string :=
  store_of {["braces" := braces_workflow]}.

Definition braces_context : dict := {["" := VInt 7]}.

Definition braces_run : (@exn string + dict) * @store nat string :=
  execute_workflow echo_tool "braces" braces_context braces_store.

(** A query that is itself in braces. *)
Definition quote_workflow : list step :=
  [mk_step "S" {["x" := VStr "{query}"]}].

Definition quote_store : @store nat string :=
  store_of {["quote" := quote_workflow]}.

Definition quote_run : (@exn string + dict) * @store nat string :=
  execute_workflow echo_tool "quote" nested_context quote_store.

(** Step B names a result that no step produces. *)
Definition orphan_workflow : list step :=
  [mk_step "A" ∅; mk_step "B" {["x" := VStr "{missing}"]}].

Definition orphan_store : @store nat string :=
  store_of {["orphan" := orphan_workflow]}.

Definition orphan_run : (@exn string + dict) * @store nat string :=
  execute_workflow counting_tool "orphan" ∅ orphan_store.

(** A string with an opening brace only, and a number. *)
Definition literal_workflow : list step :=
  [mk_step "T" (<["x" := VStr "{open"]> {["n" := VInt 5]})].

Definition literal_store : @store nat string :=
  store_of {["literal" := literal_workflow]}.

Definition literal_run : (@exn string + dict) * @store nat string :=
  execute_workflow echo_tool "literal" ∅ literal_store.

(** The second of three tools raises. *)
Definition abc_workflow : list step :=
  [mk_step "A" ∅; mk_step "B" ∅; mk_step "C" ∅].

Definition abc_store : @store nat string :=
  store_of {["abc" := abc_workflow]}.

Definition abc_run : (@exn string + dict) * @store nat string :=
  execute_workflow (failing_tool "B") "abc" ∅ abc_store.

(** The research workflow of the source, with a query. *)
Definition research_run : (@exn string + dict) * @store nat string :=
  execute_workflow counting_tool "research_assistant"
    {["query" := VStr "rust"]} initial_store.

(** A [repr] that prints no entry. *)
Definition opaque_repr (d : dict) : string := "{...}".

(** A registration that replaces a built-in workflow by a step with no
    field at all. *)
Definition replace_arguments : arguments :=
  {| arg_workflow := None; arg_context := None;
     arg_name := Some "morning_briefing";
     arg_steps := Some [{| tool := None; params := None |}] |}.

(** A registration that replaces the workflow [twice] by the two steps of
    [chain]. *)
Definition swap_arguments : arguments :=
  {| arg_workflow := None; arg_context := None;
     arg_name := Some "twice";
     arg_steps := Some chain_workflow |}.

(** The dict a run returned, [{}] when it raised. *)
Definition returned {E S : Type} (run : (E + dict) * S) : dict :=
  match run.1 with
  | inr results => results
  | inl _ => ∅
  end.

(** ** [handle_list_tools] *)

Module types.

(** [types.Tool], with the three fields the source fills in. *)
Record Tool : Type := mkTool {
  name : string;
  description : string;
  inputSchema : value
}.

End types.

(** The two tools the server advertises, with their input schemas as the
    source writes them. *)
Definition handle_list_tools : list types.Tool :=
  [ {| types.name := "execute_workflow";
       types.description := "Execute a predefined workflow";
       types.inputSchema := VDict (
         <["type" := VStr "object"]> (
         <["properties" := VDict (
             <["workflow" := VDict (
                 <["type" := VStr "string"]>
                 {["enum" := VList [VStr "morning_briefing";
                                    VStr "deploy_checklist";
                                    VStr "research_assistant"]]})]>
             {["context" := VDict {["type" := VStr "object"]}]})]>
         {["required" := VList [VStr "workflow"]]})) |};
    {| types.name := "create_custom_workflow";
       types.description := "Create a custom workflow";
       types.inputSchema := VDict (
         <["type" := VStr "object"]> (
         <["properties" := VDict (
             <["name" := VDict {["type" := VStr "string"]}]>
             {["steps" := VDict (
                 <["type" := VStr "array"]>
                 {["items" := VDict (
                     <["type" := VStr "object"]>
                     {["properties" := VDict (
                         <["tool" := VDict {["type" := VStr "string"]}]>
                         {["params" := VDict {["type" := VStr "object"]}]})]})]})]})]>
         {["required" := VList [VStr "name"; VStr "steps"]]})) |} ].

(** The names the server advertises. *)
Definition advertised : list string := types.name <$> handle_list_tools.

(** [v[key]] on a JSON value, when [v] is an object that has the key. *)
Definition member (key : string) (v : value) : option value :=
  match v with
  | VDict d => d !! key
  | _ => None
  end.

(** The strings of a JSON array. *)
Definition strings_of (v : value) : list string :=
  match v with
  | VList l => omap (λ x, match x with VStr s => Some s | _ => None end) l
  | _ => []
  end.

(** [v[k1][k2]...] on a JSON value. *)
Definition path (keys : list string) (v : value) : option value :=
  foldl (λ o key, match o with Some x => member key x | None => None end)
        (Some v) keys.

(** The workflow names the schema of [execute_workflow] admits: the [enum]
    of its property [workflow]. *)
Definition workflow_enum : list string :=
  match handle_list_tools with
  | t :: _ =>
      match path ["properties"; "workflow"; "enum"] (types.inputSchema t) with
      | Some e => strings_of e
      | None => []
      end
  | [] => []
  end.

(** ** Reading more of a run *)

(** The step has its two fields. *)
Definition well_formed (s : step) : bool :=
  match params s, tool s with
  | Some _, Some _ => true
  | _, _ => false
  end.

(** The world after the calls [cs] are made one after the other from the
    world [w]. *)
Definition replay {World ToolExn : Type}
    (execute_tool : string → dict → World → (ToolExn + value) * World)
    (w : World) (cs : list (@call ToolExn)) : World :=
  foldl (λ w c, (execute_tool (call_tool c) (call_params c) w).2) w cs.

(** A store like [st] with the registry [registry]. *)
Definition with_workflows {World ToolExn : Type}
    (registry : gmap string (list step)) (st : @store World ToolExn)
    : @store World ToolExn :=
  {| workflows := registry; context := context st;
     world := world st; calls := calls st |}.


(** ** More runs to test on *)

(** Step A names the result of step B, which comes after it. *)
Definition forward_workflow : list step :=
  [mk_step "A" {["x" := VStr "{B}"]}; mk_step "B" ∅].

Definition forward_store : @store nat string :=
  store_of {["forward" := forward_workflow]}.

Definition forward_run : (@exn string + dict) * @store nat string :=
  execute_workflow counting_tool "forward" ∅ forward_store.

(** The second step has a tool and no parameters object. *)
Definition gap_workflow : list step :=
  [mk_step "A" ∅; {| tool := Some "B"; params := None |}; mk_step "C" ∅].

Definition gap_store : @store nat string :=
  store_of {["gap" := gap_workflow]}.

Definition gap_run : (@exn string + dict) * @store nat string :=
  execute_workflow counting_tool "gap" ∅ gap_store.

(** A call of a workflow that is not registered. *)
Definition nope_arguments : arguments :=
  {| arg_workflow := Some "nope"; arg_context := None;
     arg_name := None; arg_steps := None |}.


(** * Properties *)

(** ** String tests *)

Example startswith_brace : Str.startswith "{query}" "{" = true.
Proof. reflexivity. Qed.
Example endswith_brace : Str.endswith "{query}" "}" = true.
Proof. reflexivity. Qed.
Example endswith_short : Str.endswith "" "}" = false.
Proof. reflexivity. Qed.
Example strip_ends_query : Str.strip_ends "{query}" = "query".
Proof. reflexivity. Qed.
Example strip_ends_one : Str.strip_ends "{" = "".
Proof. reflexivity. Qed.

Example braces_only : Str.startswith "{}" "{" && Str.endswith "{}" "}" = true
  ∧ Str.strip_ends "{}" = "".
Proof. split; reflexivity. Qed.

(** ** Parameter resolution *)

Section Resolution.
Variables context results : dict.

Lemma resolve_param_lookup key v acc k :
  resolve_param context results key v acc !! k =
  if decide (key = k)
  then match resolve_value context results v with
       | Some x => Some x
       | None => acc !! k
       end
  else acc !! k.
Proof.
  unfold resolve_param, resolve_value.
  destruct v as [| | | |s| |]; try (rewrite lookup_insert; by case_decide).
  destruct (Str.startswith s "{" && Str.endswith s "}").
  - destruct (context !! Str.strip_ends s);
      [rewrite lookup_insert; by case_decide|].
    destruct (results !! Str.strip_ends s);
      [rewrite lookup_insert|]; by case_decide.
  - rewrite lookup_insert; by case_decide.
Qed.

(** The inner loop treats every parameter on its own: the mapping it builds
    binds [k] to what the value of [k] resolves to. *)
Lemma resolve_params_lookup step_params k :
  resolve_params context results step_params !! k =
  step_params !! k ≫= resolve_value context results.
Proof.
  unfold resolve_params. revert k.
  apply (map_fold_weak_ind (λ (r : dict) (m : dict),
           ∀ k, r !! k = m !! k ≫= resolve_value context results)).
  - intros k. by rewrite !lookup_empty.
  - intros i x m r Hfresh IH k.
    rewrite resolve_param_lookup, lookup_insert.
    case_decide as Hik; [subst k|apply IH].
    simpl. destruct (resolve_value context results x); [done|].
    by rewrite IH, Hfresh.
Qed.

End Resolution.

(** ** Steps as JSON *)

(** Written as JSON and read back, a step is itself: every step of the
    records is the reading of a JSON value. *)
Lemma step_of_json_of_step (s : step) :
  step_of_json (json_of_step s) = Some s.
Proof.
  destruct s as [[t|] [p|]];
    unfold step_of_json, json_of_step, string_field, object_field;
    cbn [tool params id].
  - rewrite lookup_insert_eq, lookup_insert_ne, lookup_singleton_eq; done.
  - by rewrite lookup_insert_eq, lookup_insert_ne, lookup_empty.
  - by rewrite lookup_singleton_ne, lookup_singleton_eq.
  - by rewrite !lookup_empty.
Qed.

Lemma steps_of_json_of_steps (steps : list step) :
  steps_of_json (json_of_steps steps) = Some steps.
Proof.
  unfold steps_of_json, json_of_steps.
  induction steps as [|s steps IH]; [done|].
  rewrite fmap_cons. cbn [mapM].
  by rewrite step_of_json_of_step, IH.
Qed.

(** Storing a JSON value that reads as [steps] is storing [steps]. *)
Lemma represents_register (json : gmap string value)
    (registry : gmap string (list step)) name v steps :
  represents json registry →
  steps_of_json v = Some steps →
  represents (register_json name v json) (<[name := steps]> registry).
Proof.
  intros Hrep Hv n. unfold register_json.
  destruct (decide (name = n)) as [->|Hne].
  - rewrite !lookup_insert_eq. by constructor.
  - rewrite !lookup_insert_ne by done. apply Hrep.
Qed.

(** ** The run *)

Section Run.
Context {World ToolExn : Type}.
Variable execute_tool : string → dict → World → (ToolExn + value) * World.

Local Abbreviation store := (@store World ToolExn).
Local Abbreviation call := (@call ToolExn).
Local Abbreviation exn := (@exn ToolExn).

(** One turn of the outer loop, case by case. *)
Lemma run_step_eq (s : step) (results : dict) (st : store) :
  run_step execute_tool s results st =
  match params s, tool s with
  | None, _ => (inl (KeyError "params"), st)
  | Some _, None => (inl (KeyError "tool"), st)
  | Some sp, Some t =>
      let p := resolve_params (context st) results sp in
      let (o, w) := execute_tool t p (world st) in
      let st' := {| workflows := workflows st; context := context st;
                    world := w; calls := calls st ++ [Call t p o] |} in
      match o with
      | inr v => (inr (<[t := v]> results), st')
      | inl e => (inl (ToolFailure e), st')
      end
  end.
Proof.
  unfold run_step. destruct s as [[t|] [sp|]]; simpl; try reflexivity.
  unfold mbind, M_bind, bind, gets, await_execute_tool; simpl.
  destruct (execute_tool t _ (world st)) as [[e|v] w]; reflexivity.
Qed.

Lemma run_steps_nil (results : dict) (st : store) :
  run_steps execute_tool [] results st = (inr results, st).
Proof. reflexivity. Qed.

Lemma run_steps_cons (s : step) rest (results : dict) (st : store) :
  run_steps execute_tool (s :: rest) results st =
  match run_step execute_tool s results st with
  | (inr results', st') => run_steps execute_tool rest results' st'
  | (inl e, st') => (inl e, st')
  end.
Proof. reflexivity. Qed.

Lemma record_all_cons (c : call) cs (results : dict) :
  record_all (c :: cs) results = record_all cs (record results c).
Proof. reflexivity. Qed.

(** The log of the outer loop. *)
Lemma run_steps_log workflow : ∀ (results : dict) (st : store) r st',
  run_steps execute_tool workflow results st = (r, st') →
  ∃ new, run_log workflow results st r st' new.
Proof.
  induction workflow as [|s rest IH]; intros results st r st' Hrun.
  - rewrite run_steps_nil in Hrun. injection Hrun as <- <-.
    exists []. unfold run_log. rewrite app_nil_r.
    split_and!; try done.
    by intros res [= <-].
  - rewrite run_steps_cons, run_step_eq in Hrun.
    destruct (params s) as [sp|] eqn:Hsp; cycle 1.
    { injection Hrun as <- <-. exists []. unfold run_log.
      rewrite app_nil_r. split_and!; try done; [simpl; lia|].
      intros s' [= <-]. auto. }
    destruct (tool s) as [t|] eqn:Ht; cycle 1.
    { injection Hrun as <- <-. exists []. unfold run_log.
      rewrite app_nil_r. split_and!; try done; [simpl; lia|].
      intros s' [= <-]. auto. }
    simpl in Hrun.
    destruct (execute_tool t _ (world st)) as [[e|v] w] eqn:Hcall.
    + injection Hrun as <- <-.
      exists [Call t (resolve_params (context st) results sp) (inl e)].
      unfold run_log; simpl. split_and!; try done.
      * lia.
      * intros [|i] c Hc; [|done]. injection Hc as <-. simpl. eauto 10.
      * intros [|i] c e' Hc Ho; [|done]. by simplify_eq/=.
      * intros s' _. left. eauto.
    + apply IH in Hrun
        as (new & Hcalls & Hwf & Hctx & Hlen & Hpar & Hfail & Hret & Hstop).
      simpl in *.
      set (c := Call t (resolve_params (context st) results sp) (inr v)) in *.
      exists (c :: new). unfold run_log.
      split_and!; try done.
      * by rewrite Hcalls, <- app_assoc.
      * simpl; lia.
      * intros [|i] c' Hc'; simpl in Hc'.
        { injection Hc' as <-. simpl. eauto 10. }
        destruct (Hpar i c' Hc') as (s' & sp' & ? & ? & ? & ?).
        exists s', sp'. simpl. eauto.
      * intros [|i] c' e Hc' Ho; simpl in *; [by simplify_eq/=|].
        destruct (Hfail i c' e) as [-> ->]; done.
      * intros res ->. destruct (Hret res eq_refl) as [Hn ->].
        split; [simpl; by rewrite Hn|by rewrite record_all_cons].
      * intros s' Hs'. simpl in Hs'.
        destruct (Hstop s' Hs') as [(c' & e & Hlast & Ho)|Hmiss]; [|by right].
        left. exists c', e. split; [|done].
        destruct new as [|c0 new0]; [done|]. by rewrite last_cons, Hlast.
Qed.


(** [execute_workflow], case by case. *)
Lemma execute_workflow_eq name (ctx : dict) (st : store) :
  execute_workflow execute_tool name ctx st =
  match workflows st !! name with
  | None => (inl (ValueError ("Unknown workflow: " +:+ name)),
             entry_store ctx st)
  | Some workflow => run_steps execute_tool workflow ∅ (entry_store ctx st)
  end.
Proof.
  unfold execute_workflow, mbind, M_bind, bind, bind_context, gets; simpl.
  by destruct (workflows st !! name).
Qed.

(** The log of a run of a registered workflow is the log of its loop. *)
Lemma execute_workflow_log name (ctx : dict) (st : store) workflow r st' :
  workflows st !! name = Some workflow →
  execute_workflow execute_tool name ctx st = (r, st') →
  run_log workflow ∅ (entry_store ctx st) r st' (new_calls st st').
Proof.
  intros Hname Hrun. rewrite execute_workflow_eq, Hname in Hrun.
  destruct (run_steps_log _ _ _ _ _ Hrun) as [new Hlog].
  assert (new_calls st st' = new) as ->; [|done].
  destruct Hlog as (Hcalls & _). unfold new_calls.
  rewrite Hcalls. simpl. apply drop_app_length.
Qed.

(** ** Step sequencing *)

Lemma new_calls_app (st st' : store) (new : list call) :
  calls st' = calls st ++ new → new_calls st st' = new.
Proof. intros H. unfold new_calls. rewrite H. apply drop_app_length. Qed.

Lemma replay_cons (w : World) (c : call) cs :
  replay execute_tool w (c :: cs) =
  replay execute_tool (execute_tool (call_tool c) (call_params c) w).2 cs.
Proof. reflexivity. Qed.

(** The world of a run is the world its calls leave, and every call in the
    log is what [execute_tool] did in the world the calls before it left. *)
Lemma run_steps_replay workflow : ∀ (results : dict) (st : store) r st',
  run_steps execute_tool workflow results st = (r, st') →
  ∃ new, calls st' = calls st ++ new
    ∧ world st' = replay execute_tool (world st) new
    ∧ ∀ i c, new !! i = Some c →
        call_outcome c =
        (execute_tool (call_tool c) (call_params c)
           (replay execute_tool (world st) (take i new))).1.
Proof.
  induction workflow as [|s rest IH]; intros results st r st' Hrun.
  - rewrite run_steps_nil in Hrun. injection Hrun as <- <-.
    exists []. by rewrite app_nil_r.
  - rewrite run_steps_cons, run_step_eq in Hrun.
    destruct (params s) as [sp|];
      [|injection Hrun as <- <-; exists []; by rewrite app_nil_r].
    destruct (tool s) as [t|];
      [|injection Hrun as <- <-; exists []; by rewrite app_nil_r].
    simpl in Hrun.
    destruct (execute_tool t _ (world st)) as [o w] eqn:Hcall.
    set (c := Call t (resolve_params (context st) results sp) o) in *.
    assert (execute_tool (call_tool c) (call_params c) (world st) = (o, w))
      as Hc by done.
    destruct o as [e|v].
    + injection Hrun as <- <-. exists [c]. split_and!; [done|..].
      * by rewrite replay_cons, Hc.
      * intros [|i] c' Hc'; [|done]. injection Hc' as <-. simpl take.
        unfold replay at 1. simpl foldl. by rewrite Hc.
    + apply IH in Hrun as (new & Hcalls & Hworld & Hout).
      simpl in Hcalls, Hworld, Hout.
      exists (c :: new). split_and!.
      * by rewrite Hcalls, <- app_assoc.
      * by rewrite replay_cons, Hc.
      * intros [|i] c' Hc'; simpl in Hc'.
        { injection Hc' as <-. simpl take. unfold replay at 1. simpl foldl.
          by rewrite Hc. }
        simpl take. rewrite replay_cons, Hc. by apply Hout.
Qed.

(** One more call replayed is [execute_tool] applied once more. *)
Lemma replay_snoc (w : World) (cs : list call) (c : call) :
  replay execute_tool w (cs ++ [c]) =
  (execute_tool (call_tool c) (call_params c) (replay execute_tool w cs)).2.
Proof. unfold replay. by rewrite foldl_app. Qed.

(** The world and the outcomes of a run are those of its calls replayed. *)
Lemma execute_workflow_replay name (ctx : dict) (st : store) r st' :
  execute_workflow execute_tool name ctx st = (r, st') →
  world st' = replay execute_tool (world st) (new_calls st st')
  ∧ ∀ i c, new_calls st st' !! i = Some c →
      call_outcome c =
      (execute_tool (call_tool c) (call_params c)
         (replay execute_tool (world st) (take i (new_calls st st')))).1.
Proof.
  intros Hrun. rewrite execute_workflow_eq in Hrun.
  destruct (workflows st !! name) as [workflow|].
  - destruct (run_steps_replay _ _ _ _ _ Hrun) as (new & Hcalls & Hw & Ho).
    by rewrite (new_calls_app st st' new).
  - injection Hrun as <- <-.
    rewrite (new_calls_app st (entry_store ctx st) [])
      by (simpl; by rewrite app_nil_r).
    done.
Qed.

(** The log of a run that returns. *)
Lemma returning_run_log
    name (ctx : dict) (st : store) workflow (results : dict) st' :
  workflows st !! name = Some workflow →
  execute_workflow execute_tool name ctx st = (inr results, st') →
  calls st' = calls st ++ new_calls st st'
  ∧ length (new_calls st st') = length workflow
  ∧ (∀ i s, workflow !! i = Some s →
       ∃ c, new_calls st st' !! i = Some c
         ∧ tool s = Some (call_tool c)
         ∧ ∃ v, call_outcome c = inr v)
  ∧ results = record_all (new_calls st st') ∅.
Proof.
  intros Hname Hrun.
  destruct (execute_workflow_log _ _ _ _ _ _ Hname Hrun)
    as (Hcalls & _ & _ & _ & Hpar & Hfail & Hret & _).
  destruct (Hret results eq_refl) as [Hlen Hres].
  split_and!; try done.
  intros i s Hs.
  destruct (lookup_lt_is_Some_2 (new_calls st st') i) as [c Hc].
  { rewrite Hlen. by eapply lookup_lt_Some. }
  exists c. destruct (Hpar i c Hc) as (s' & sp & Hs' & Htool & _).
  rewrite Hs in Hs'. injection Hs' as <-.
  split_and!; try done.
  destruct (call_outcome c) as [e|v] eqn:Ho; [|by exists v].
  by destruct (Hfail i c e Hc Ho).
Qed.

(** C1. A run of a registered workflow that returns has invoked
    [execute_tool] once per step and no more: the log grew by as many calls
    as the workflow has steps, call [i] is the call of the tool of step [i]
    and returned a value, and the dict returned is the one these calls
    recorded, in order, from the empty dict.  The log is what was done:
    the world the run leaves is the world [execute_tool] leaves when it is
    applied to the logged calls one after the other, and the outcome logged
    for a call is the one [execute_tool] gave, in the world the calls
    before it left, for the tool and the dict logged. *)
Theorem run_calls_each_step_in_order
    name (ctx : dict) (st : store) workflow (results : dict) st' :
  workflows st !! name = Some workflow →
  execute_workflow execute_tool name ctx st = (inr results, st') →
  calls st' = calls st ++ new_calls st st'
  ∧ length (new_calls st st') = length workflow
  ∧ (∀ i s, workflow !! i = Some s →
       ∃ c, new_calls st st' !! i = Some c
         ∧ tool s = Some (call_tool c)
         ∧ ∃ v, call_outcome c = inr v)
  ∧ results = record_all (new_calls st st') ∅
  ∧ world st' = replay execute_tool (world st) (new_calls st st')
  ∧ (∀ i c, new_calls st st' !! i = Some c →
       call_outcome c =
       (execute_tool (call_tool c) (call_params c)
          (replay execute_tool (world st) (take i (new_calls st st')))).1).
Proof.
  intros Hname Hrun.
  destruct (returning_run_log _ _ _ _ _ _ Hname Hrun)
    as (Hcalls & Hlen & Hstep & Hres).
  destruct (execute_workflow_replay _ _ _ _ _ Hrun) as [Hworld Hout].
  by split_and!.
Qed.

(** ** Errors *)

(** C3. A run of a name that is not registered raises the [ValueError]
    whose message names the workflow, and [execute_tool] is not invoked:
    the log and the world are as before the run. *)
Theorem unknown_workflow_fails_before_any_call
    name (ctx : dict) (st : store) :
  workflows st !! name = None →
  ∃ st', execute_workflow execute_tool name ctx st =
           (inl (ValueError ("Unknown workflow: " +:+ name)), st')
    ∧ new_calls st st' = []
    ∧ calls st' = calls st
    ∧ world st' = world st.
Proof.
  intros Hname. exists (entry_store ctx st).
  rewrite execute_workflow_eq, Hname.
  split_and!; try done.
  unfold new_calls; simpl. apply drop_all.
Qed.

(** C4. When call [k] of a run (counted from 1) raises [e], the run raises
    [e] itself, wrapped in nothing; call [k] is the call of step [k]; it is
    the last call of the run, so no later step reaches [execute_tool]; and
    the run returns no dict.  The exception is the one [execute_tool] gave
    for that call, and the world keeps what the [k] calls did to it. *)
Theorem tool_failure_aborts_the_run
    name (ctx : dict) (st : store) workflow r st' k c e :
  workflows st !! name = Some workflow →
  execute_workflow execute_tool name ctx st = (r, st') →
  1 ≤ k →
  new_calls st st' !! (k - 1) = Some c →
  call_outcome c = inl e →
  r = inl (ToolFailure e)
  ∧ (∀ res, r ≠ inr res)
  ∧ length (new_calls st st') = k
  ∧ k ≤ length workflow
  ∧ (∃ s, workflow !! (k - 1) = Some s ∧ tool s = Some (call_tool c))
  ∧ (execute_tool (call_tool c) (call_params c)
       (replay execute_tool (world st)
          (take (k - 1) (new_calls st st')))).1 = inl e
  ∧ world st' = replay execute_tool (world st) (new_calls st st').
Proof.
  intros Hname Hrun Hk Hc Ho.
  destruct (execute_workflow_log _ _ _ _ _ _ Hname Hrun)
    as (_ & _ & _ & Hlen & Hpar & Hfail & _).
  destruct (execute_workflow_replay _ _ _ _ _ Hrun) as [Hworld Hout].
  destruct (Hfail _ _ _ Hc Ho) as [-> Hn].
  destruct (Hpar _ _ Hc) as (s & sp & Hs & Htool & _).
  split_and!; try done; try lia; [eauto|].
  by rewrite <- (Hout _ _ Hc).
Qed.

(** ** Parameters as [execute_tool] receives them *)

(** In call [i] of a run, a parameter of step [i] is bound to what its value
    resolves to against the context and the results recorded by the calls
    before it. *)
Lemma call_params_lookup
    name (ctx : dict) (st : store) workflow r st' i s sp c key :
  workflows st !! name = Some workflow →
  execute_workflow execute_tool name ctx st = (r, st') →
  workflow !! i = Some s →
  params s = Some sp →
  new_calls st st' !! i = Some c →
  call_params c !! key =
  sp !! key ≫= resolve_value ctx (record_all (take i (new_calls st st')) ∅).
Proof.
  intros Hname Hrun Hs Hsp Hc.
  destruct (execute_workflow_log _ _ _ _ _ _ Hname Hrun)
    as (_ & _ & _ & _ & Hpar & _).
  destruct (Hpar i c Hc) as (s' & sp' & Hs' & _ & Hsp' & ->).
  rewrite Hs in Hs'. injection Hs' as <-.
  rewrite Hsp in Hsp'. injection Hsp' as <-.
  apply resolve_params_lookup.
Qed.

(** A run that got as far as step [i] calls the tool of step [i], when the
    step has its two fields. *)
Lemma reached_step_is_called
    name (ctx : dict) (st : store) workflow r st' i s sp t :
  workflows st !! name = Some workflow →
  execute_workflow execute_tool name ctx st = (r, st') →
  workflow !! i = Some s →
  params s = Some sp →
  tool s = Some t →
  i ≤ length (new_calls st st') →
  forallb succeeded (take i (new_calls st st')) = true →
  ∃ c, new_calls st st' !! i = Some c ∧ call_tool c = t.
Proof.
  intros Hname Hrun Hs Hsp Ht Hi Hok.
  destruct (execute_workflow_log _ _ _ _ _ _ Hname Hrun)
    as (_ & _ & _ & _ & Hpar & _ & _ & Hstop).
  destruct (decide (i = length (new_calls st st'))) as [->|Hne].
  - exfalso. destruct (Hstop s Hs) as [(c & e & Hlast & Ho)|[?|?]];
      [|congruence..].
    rewrite take_ge, forallb_forall in Hok by lia.
    assert (succeeded c = true) as Hc; [|unfold succeeded in Hc; by rewrite Ho in Hc].
    apply Hok, list_elem_of_In.
    rewrite last_lookup in Hlast. by eapply list_elem_of_lookup_2.
  - destruct (lookup_lt_is_Some_2 (new_calls st st') i) as [c Hc]; [lia|].
    exists c. split; [done|].
    destruct (Hpar i c Hc) as (s' & _ & Hs' & Htool & _).
    rewrite Hs in Hs'. injection Hs' as <-. congruence.
Qed.

(** C2. In call [i] of a run, a parameter of step [i] whose value is a
    string that starts with an opening brace and ends with a closing brace
    is bound to the context's value for the text between the braces when
    the context has one, and otherwise to the value the earlier calls
    recorded for it when there is one.  The value is bound as found,
    whatever it is: a string in braces is not looked up again.  The dict
    with that binding is the one [execute_tool] is applied to: the outcome
    of the call is what [execute_tool] gave for it. *)
Theorem placeholder_resolves_context_then_results
    name (ctx : dict) (st : store) workflow r st' i s sp c key str :
  workflows st !! name = Some workflow →
  execute_workflow execute_tool name ctx st = (r, st') →
  workflow !! i = Some s →
  params s = Some sp →
  new_calls st st' !! i = Some c →
  sp !! key = Some (VStr str) →
  Str.startswith str "{" = true →
  Str.endswith str "}" = true →
  let results := record_all (take i (new_calls st st')) ∅ in
  (∀ v, ctx !! Str.strip_ends str = Some v → call_params c !! key = Some v)
  ∧ (∀ v, ctx !! Str.strip_ends str = None →
          results !! Str.strip_ends str = Some v →
          call_params c !! key = Some v)
  ∧ call_outcome c =
    (execute_tool (call_tool c) (call_params c)
       (replay execute_tool (world st) (take i (new_calls st st')))).1.
Proof.
  intros Hname Hrun Hs Hsp Hc Hkey Hopen Hclose results.
  destruct (execute_workflow_replay _ _ _ _ _ Hrun) as [_ Hout].
  rewrite (call_params_lookup _ _ _ _ _ _ _ _ _ _ key Hname Hrun Hs Hsp Hc).
  rewrite Hkey. simpl. rewrite Hopen, Hclose. simpl.
  split_and!; [intros v Hv; rewrite Hv; done..|by apply Hout].
Qed.

(** C5. When a run gets as far as step [i], and a parameter of the step is
    a string in braces whose inner text is a key neither of the context nor
    of the results recorded so far, the step still calls its tool, and the
    dict the tool receives has no entry for that parameter: the outcome of
    the call is what [execute_tool] gave for the dict without it. *)
Theorem unresolved_placeholder_is_omitted
    name (ctx : dict) (st : store) workflow r st' i s sp t key str :
  workflows st !! name = Some workflow →
  execute_workflow execute_tool name ctx st = (r, st') →
  workflow !! i = Some s →
  params s = Some sp →
  tool s = Some t →
  i ≤ length (new_calls st st') →
  forallb succeeded (take i (new_calls st st')) = true →
  sp !! key = Some (VStr str) →
  Str.startswith str "{" = true →
  Str.endswith str "}" = true →
  ctx !! Str.strip_ends str = None →
  record_all (take i (new_calls st st')) ∅ !! Str.strip_ends str = None →
  ∃ c, new_calls st st' !! i = Some c
    ∧ call_tool c = t
    ∧ call_params c !! key = None
    ∧ call_outcome c =
      (execute_tool t (call_params c)
         (replay execute_tool (world st) (take i (new_calls st st')))).1.
Proof.
  intros Hname Hrun Hs Hsp Ht Hi Hok Hkey Hopen Hclose Hctx Hres.
  destruct (reached_step_is_called _ _ _ _ _ _ _ _ _ _
              Hname Hrun Hs Hsp Ht Hi Hok) as (c & Hc & Htool).
  destruct (execute_workflow_replay _ _ _ _ _ Hrun) as [_ Hout].
  exists c. split_and!; try done.
  - rewrite (call_params_lookup _ _ _ _ _ _ _ _ _ _ key Hname Hrun Hs Hsp Hc).
    rewrite Hkey. simpl. by rewrite Hopen, Hclose, Hctx, Hres.
  - rewrite <- Htool. by apply Hout.
Qed.

(** C7. In call [i] of a run, a parameter of step [i] whose value is not a
    string, or is a string that does not both start with an opening brace
    and end with a closing brace, is bound to that very value, in the dict
    [execute_tool] is applied to: the outcome of the call is what
    [execute_tool] gave for it. *)
Theorem literal_is_passed_unchanged
    name (ctx : dict) (st : store) workflow r st' i s sp c key v :
  workflows st !! name = Some workflow →
  execute_workflow execute_tool name ctx st = (r, st') →
  workflow !! i = Some s →
  params s = Some sp →
  new_calls st st' !! i = Some c →
  sp !! key = Some v →
  (∀ str, v = VStr str →
          Str.startswith str "{" && Str.endswith str "}" = false) →
  call_params c !! key = Some v
  ∧ call_outcome c =
    (execute_tool (call_tool c) (call_params c)
       (replay execute_tool (world st) (take i (new_calls st st')))).1.
Proof.
  intros Hname Hrun Hs Hsp Hc Hkey Hlit.
  destruct (execute_workflow_replay _ _ _ _ _ Hrun) as [_ Hout].
  split; [|by apply Hout].
  rewrite (call_params_lookup _ _ _ _ _ _ _ _ _ _ key Hname Hrun Hs Hsp Hc).
  rewrite Hkey. simpl.
  destruct v as [| | | |str| |]; try done.
  simpl. by rewrite (Hlit str eq_refl).
Qed.

(** C10. In call [i] of a run, a parameter of step [i] whose value is the
    string of the two braces alone is looked up under the empty key: it is
    bound to the context's value for the empty key, else to the recorded
    result for the empty key, else left out.  When the tool does receive the
    two braces for it, they are the value found under the empty key.  The
    dict so built is the one [execute_tool] is applied to. *)
Theorem empty_braces_are_a_placeholder
    name (ctx : dict) (st : store) workflow r st' i s sp c key :
  workflows st !! name = Some workflow →
  execute_workflow execute_tool name ctx st = (r, st') →
  workflow !! i = Some s →
  params s = Some sp →
  new_calls st st' !! i = Some c →
  sp !! key = Some (VStr "{}") →
  let results := record_all (take i (new_calls st st')) ∅ in
  call_params c !! key =
    match ctx !! "" with
    | Some v => Some v
    | None => results !! ""
    end
  ∧ (ctx !! "" = None → results !! "" = None → call_params c !! key = None)
  ∧ (call_params c !! key = Some (VStr "{}") →
     ctx !! "" = Some (VStr "{}")
     ∨ (ctx !! "" = None ∧ results !! "" = Some (VStr "{}")))
  ∧ call_outcome c =
    (execute_tool (call_tool c) (call_params c)
       (replay execute_tool (world st) (take i (new_calls st st')))).1.
Proof.
  intros Hname Hrun Hs Hsp Hc Hkey results.
  destruct (execute_workflow_replay _ _ _ _ _ Hrun) as [_ Hout].
  rewrite (call_params_lookup _ _ _ _ _ _ _ _ _ _ key Hname Hrun Hs Hsp Hc).
  rewrite Hkey. simpl. change (Str.strip_ends "{}") with "".
  fold results. split_and!.
  - done.
  - by intros -> ->.
  - destruct (ctx !! "") as [v|]; [left|right]; auto.
  - by apply Hout.
Qed.

(** ** The dict a run returns *)

Lemma record_all_other (cs : list call) (base : dict) A :
  (∀ c, c ∈ cs → call_tool c ≠ A) →
  record_all cs base !! A = base !! A.
Proof.
  revert base. induction cs as [|c cs IH]; intros base Hcs; [done|].
  rewrite record_all_cons, IH.
  - unfold record. destruct (call_outcome c); [done|].
    apply lookup_insert_ne, Hcs. left.
  - intros c' Hc'. apply Hcs. by right.
Qed.

(** The entry of a tool is what its last call returned. *)
Lemma record_all_last (cs : list call) (base : dict) j c v :
  cs !! j = Some c →
  call_outcome c = inr v →
  (∀ k c', j < k → cs !! k = Some c' → call_tool c' ≠ call_tool c) →
  record_all cs base !! call_tool c = Some v.
Proof.
  revert base j. induction cs as [|c0 cs IH]; intros base j Hc Ho Hlater;
    [done|].
  rewrite record_all_cons. destruct j as [|j]; simpl in Hc.
  - injection Hc as ->. rewrite record_all_other.
    + unfold record. rewrite Ho. apply lookup_insert_eq.
    + intros c' [k Hk]%list_elem_of_lookup_1.
      apply (Hlater (S k)); [lia|done].
  - apply (IH _ j); [done..|].
    intros k c' Hjk Hk. apply (Hlater (S k)); [lia|done].
Qed.

(** C6. When steps [i] and [j], [i] before [j], name the same tool and no
    step after [j] names it, the dict a run returns binds the tool to the
    value the call of step [j] returned, whatever the call of step [i]
    returned.  Both values are the ones [execute_tool] gave for the tool,
    each in the world the calls before it left. *)
Theorem same_tool_twice_keeps_the_later_result
    name (ctx : dict) (st : store) workflow (results : dict) st'
    i j s1 s2 A :
  workflows st !! name = Some workflow →
  execute_workflow execute_tool name ctx st = (inr results, st') →
  workflow !! i = Some s1 →
  workflow !! j = Some s2 →
  i < j →
  tool s1 = Some A →
  tool s2 = Some A →
  (∀ k s, j < k → workflow !! k = Some s → tool s ≠ Some A) →
  ∃ c1 c2 v1 v2,
    new_calls st st' !! i = Some c1 ∧ call_tool c1 = A
    ∧ call_outcome c1 = inr v1
    ∧ new_calls st st' !! j = Some c2 ∧ call_tool c2 = A
    ∧ call_outcome c2 = inr v2
    ∧ results !! A = Some v2
    ∧ (execute_tool A (call_params c1)
         (replay execute_tool (world st)
            (take i (new_calls st st')))).1 = inr v1
    ∧ (execute_tool A (call_params c2)
         (replay execute_tool (world st)
            (take j (new_calls st st')))).1 = inr v2.
Proof.
  intros Hname Hrun Hs1 Hs2 Hij Ht1 Ht2 Hlater.
  destruct (execute_workflow_replay _ _ _ _ _ Hrun) as [_ Hout].
  destruct (returning_run_log _ _ _ _ _ _ Hname Hrun)
    as (_ & _ & Hstep & ->).
  destruct (Hstep i s1 Hs1) as (c1 & Hc1 & Htool1 & v1 & Ho1).
  destruct (Hstep j s2 Hs2) as (c2 & Hc2 & Htool2 & v2 & Ho2).
  assert (call_tool c1 = A) as HA1 by congruence.
  assert (call_tool c2 = A) as HA2 by congruence.
  exists c1, c2, v1, v2. split_and!; try done.
  - rewrite <- HA2. apply (record_all_last _ _ j); [done..|].
    intros k c' Hjk Hc'.
    destruct (execute_workflow_log _ _ _ _ _ _ Hname Hrun)
      as (_ & _ & _ & _ & Hpar & _).
    destruct (Hpar k c' Hc') as (s' & _ & Hs' & Htool' & _).
    specialize (Hlater k s' Hjk Hs'). congruence.
  - rewrite <- HA1, <- Ho1. symmetry. by apply Hout.
  - rewrite <- HA2, <- Ho2. symmetry. by apply Hout.
Qed.

(** ** What a run leaves alone *)

(** C9. However a run ends, the registry after it is the registry before
    it, and the dict bound to [context] is the one the caller passed. *)
Theorem run_preserves_context_and_registry name (ctx : dict) (st : store) :
  let st' := (execute_workflow execute_tool name ctx st).2 in
  workflows st' = workflows st ∧ context st' = ctx.
Proof.
  simpl. destruct (workflows st !! name) as [workflow|] eqn:Hname.
  - destruct (execute_workflow execute_tool name ctx st) as [r st'] eqn:Hrun.
    by destruct (execute_workflow_log _ _ _ _ _ _ Hname Hrun)
      as (_ & Hwf & Hctx & _).
  - by rewrite execute_workflow_eq, Hname.
Qed.

(** ** Registration *)

Section Registration.
Variable repr : dict → string.

(** C8. The [create_custom_workflow] call returns normally for every name
    and every list of steps, checked in no way, and leaves the list as the
    definition of the name, whether or not the name had one; the other
    names keep theirs.  A run of the name from then on is the loop over
    that list: when it returns, it made one call per step of the list, call
    [i] to the tool of step [i].  However it ends, its calls are the calls
    of the steps of that list and of no other, in their order, each with
    the parameters of its step resolved and with the outcome
    [execute_tool] gave; the world is the world these calls leave; and it
    stops before a step of the list only when the call before it raised or
    the step lacks a field.  On the registry as Python holds it, line 127
    stores whatever JSON value the call carries, of the schema's types or
    not; when the value reads as the list of steps, what is stored reads as
    the registry of the store. *)
Theorem register_stores_and_replaces name steps (st : store) args :
  arg_name args = Some name →
  arg_steps args = Some steps →
  let st1 := {| workflows := <[name := steps]> (workflows st);
                context := context st;
                world := world st; calls := calls st |} in
  handle_call_tool execute_tool repr "create_custom_workflow" args st =
    (inr [Text "text" ("Created workflow: " +:+ name)], st1)
  ∧ workflows st1 !! name = Some steps
  ∧ (∀ other, other ≠ name →
       workflows st1 !! other = workflows st !! other)
  ∧ (∀ ctx : dict,
       execute_workflow execute_tool name ctx st1 =
       run_steps execute_tool steps ∅ (entry_store ctx st1))
  ∧ (∀ (ctx results : dict) st2,
       execute_workflow execute_tool name ctx st1 = (inr results, st2) →
       length (new_calls st1 st2) = length steps
       ∧ ∀ i s, steps !! i = Some s →
           ∃ c, new_calls st1 st2 !! i = Some c
             ∧ tool s = Some (call_tool c))
  ∧ (∀ (ctx : dict) r st2,
       execute_workflow execute_tool name ctx st1 = (r, st2) →
       (∀ i c, new_calls st1 st2 !! i = Some c →
          ∃ s sp, steps !! i = Some s
            ∧ tool s = Some (call_tool c)
            ∧ params s = Some sp
            ∧ call_params c =
                resolve_params ctx
                  (record_all (take i (new_calls st1 st2)) ∅) sp
            ∧ call_outcome c =
              (execute_tool (call_tool c) (call_params c)
                 (replay execute_tool (world st)
                    (take i (new_calls st1 st2)))).1)
       ∧ world st2 = replay execute_tool (world st) (new_calls st1 st2)
       ∧ (∀ s, steps !! length (new_calls st1 st2) = Some s →
            (∃ c e, last (new_calls st1 st2) = Some c
               ∧ call_outcome c = inl e)
            ∨ params s = None ∨ tool s = None)
       ∧ (∀ results, r = inr results →
            length (new_calls st1 st2) = length steps
            ∧ results = record_all (new_calls st1 st2) ∅))
  ∧ (∀ (json : gmap string value) (v : value),
       register_json name v json !! name = Some v
       ∧ (∀ other, other ≠ name →
            register_json name v json !! other = json !! other)
       ∧ (represents json (workflows st) →
          steps_of_json v = Some steps →
          represents (register_json name v json) (workflows st1))).
Proof.
  intros Hn Hs st1.
  assert (workflows st1 !! name = Some steps) as Hreg
    by apply lookup_insert_eq.
  split_and!.
  - unfold handle_call_tool. simpl. by rewrite Hs, Hn.
  - done.
  - intros other Hne. simpl. by apply lookup_insert_ne.
  - intros ctx. by rewrite execute_workflow_eq, Hreg.
  - intros ctx results st2 Hrun.
    destruct (returning_run_log _ _ _ _ _ _ Hreg Hrun)
      as (_ & Hlen & Hstep & _).
    split; [done|]. intros i s Hi.
    destruct (Hstep i s Hi) as (c & ? & ? & _). eauto.
  - intros ctx r st2 Hrun.
    destruct (execute_workflow_log _ _ _ _ _ _ Hreg Hrun)
      as (_ & _ & _ & _ & Hpar & _ & Hret & Hstop).
    destruct (execute_workflow_replay _ _ _ _ _ Hrun) as [Hworld Hout].
    split_and!; try done.
    intros i c Hc.
    destruct (Hpar i c Hc) as (s & sp & ? & ? & ? & ?).
    exists s, sp. split_and!; try done. by apply Hout.
  - intros json v. unfold register_json. split_and!.
    + apply lookup_insert_eq.
    + intros other Hne. by apply lookup_insert_ne.
    + apply represents_register.
Qed.

End Registration.

End Run.


(** ** The theorems at work *)

Example twice_run_tools :
  call_tool <$> new_calls twice_store twice_run.2 = ["A"; "B"; "A"].
Proof. vm_compute; reflexivity. Qed.

Lemma run_calls_each_step_in_order_witness :
  length (new_calls twice_store twice_run.2) = 3
  ∧ returned twice_run !! "A" = Some (VInt 2)
  ∧ returned twice_run !! "B" = Some (VInt 1)
  ∧ world twice_run.2 = 3.
Proof.
  destruct (run_calls_each_step_in_order counting_tool "twice" ∅
              twice_store twice_workflow (returned twice_run) twice_run.2)
    as (_ & Hlen & _ & Hres & Hworld & _).
  - vm_compute; reflexivity.
  - vm_compute; reflexivity.
  - split_and!.
    + exact Hlen.
    + rewrite Hres. vm_compute; reflexivity.
    + rewrite Hres. vm_compute; reflexivity.
    + rewrite Hworld. vm_compute; reflexivity.
Defined.

Lemma unknown_workflow_fails_before_any_call_witness :
  ∃ st', execute_workflow counting_tool "nope" ∅ initial_store =
           (inl (ValueError ("Unknown workflow: " +:+ "nope")), st')
    ∧ new_calls initial_store st' = []
    ∧ calls st' = calls initial_store
    ∧ world st' = world initial_store.
Proof.
  apply unknown_workflow_fails_before_any_call.
  vm_compute; reflexivity.
Defined.

Example abc_run_raises : abc_run.1 = inl (ToolFailure "failed: B").
Proof. vm_compute; reflexivity. Qed.

Example deploy_checklist_stops_at_the_linter :
  failing_run.1 = inl (ToolFailure "failed: lint_code")
  ∧ call_tool <$> new_calls initial_store failing_run.2 =
      ["run_tests"; "check_code_coverage"; "lint_code"].
Proof. split; vm_compute; reflexivity. Qed.

Lemma tool_failure_aborts_the_run_witness :
  abc_run.1 = inl (ToolFailure "failed: B")
  ∧ length (new_calls abc_store abc_run.2) = 2.
Proof.
  destruct (tool_failure_aborts_the_run (failing_tool "B") "abc" ∅
              abc_store abc_workflow abc_run.1 abc_run.2 2
              (Call "B" ∅ (inl "failed: B")) "failed: B")
    as (Hr & _ & Hlen & _).
  - vm_compute; reflexivity.
  - vm_compute; reflexivity.
  - lia.
  - vm_compute; reflexivity.
  - reflexivity.
  - exact (conj Hr Hlen).
Defined.

(** The context binds the query to a string in braces: the tool receives
    that string, not the limit it names, and returns it.  Step B receives
    the 42 that A returned, and returns it. *)
Lemma placeholder_resolves_context_then_results_witness :
  (∃ c, new_calls quote_store quote_run.2 !! 0 = Some c
     ∧ call_params c !! "x" = Some (VStr "{limit}")
     ∧ call_outcome c = inr (VStr "{limit}"))
  ∧ (∃ c, new_calls chain_store chain_run.2 !! 1 = Some c
       ∧ call_params c !! "x" = Some (VInt 42)
       ∧ call_outcome c = inr (VInt 42)).
Proof.
  split.
  - exists (Call "S" {["x" := VStr "{limit}"]} (inr (VStr "{limit}"))).
    split; [vm_compute; reflexivity|].
    pose proof (placeholder_resolves_context_then_results echo_tool
                  "quote" nested_context quote_store quote_workflow
                  quote_run.1 quote_run.2 0
                  (mk_step "S" {["x" := VStr "{query}"]})
                  {["x" := VStr "{query}"]}
                  (Call "S" {["x" := VStr "{limit}"]}
                     (inr (VStr "{limit}")))
                  "x" "{query}") as H.
    cbv zeta in H.
    destruct H as (Hctx & _ & Hout); [vm_compute; reflexivity ..|].
    split; [apply Hctx; vm_compute; reflexivity|].
    rewrite Hout. vm_compute; reflexivity.
  - exists (Call "B" {["x" := VInt 42]} (inr (VInt 42))).
    split; [vm_compute; reflexivity|].
    pose proof (placeholder_resolves_context_then_results answer_tool
                  "chain" ∅ chain_store chain_workflow
                  chain_run.1 chain_run.2 1
                  (mk_step "B" {["x" := VStr "{A}"]})
                  {["x" := VStr "{A}"]}
                  (Call "B" {["x" := VInt 42]} (inr (VInt 42)))
                  "x" "{A}") as H.
    cbv zeta in H.
    destruct H as (_ & Hres & Hout); [vm_compute; reflexivity ..|].
    split; [apply Hres; vm_compute; reflexivity|].
    rewrite Hout. vm_compute; reflexivity.
Defined.

Example research_query_is_resolved :
  (new_calls initial_store research_run.2 !! 0) ≫=
    (λ c, call_params c !! "query") = Some (VStr "rust").
Proof. vm_compute; reflexivity. Qed.

Example nested_query_is_not_resolved_again :
  (new_calls initial_store nested_run.2 !! 0) ≫=
    (λ c, call_params c !! "query") = Some (VStr "{limit}").
Proof. vm_compute; reflexivity. Qed.

(** The research workflow of the source names results that no tool
    produces: its second tool receives no parameter. *)
Example research_papers_are_dropped :
  call_params <$> new_calls initial_store research_run.2 !! 1 = Some ∅.
Proof. vm_compute; reflexivity. Qed.

Lemma unresolved_placeholder_is_omitted_witness :
  ∃ c, new_calls orphan_store orphan_run.2 !! 1 = Some c
    ∧ call_tool c = "B"
    ∧ call_params c !! "x" = None
    ∧ call_outcome c =
      (counting_tool "B" (call_params c)
         (replay counting_tool (world orphan_store)
            (take 1 (new_calls orphan_store orphan_run.2)))).1.
Proof.
  apply (unresolved_placeholder_is_omitted counting_tool "orphan" ∅
           orphan_store orphan_workflow orphan_run.1 orphan_run.2 1
           (mk_step "B" {["x" := VStr "{missing}"]})
           {["x" := VStr "{missing}"]} "B" "x" "{missing}");
    vm_compute; reflexivity || lia.
Defined.

Lemma literal_is_passed_unchanged_witness :
  ∃ c, new_calls literal_store literal_run.2 !! 0 = Some c
    ∧ call_params c !! "x" = Some (VStr "{open")
    ∧ call_outcome c = inr (VStr "{open").
Proof.
  exists (Call "T" (<["x" := VStr "{open"]> {["n" := VInt 5]})
            (inr (VStr "{open"))).
  split; [vm_compute; reflexivity|].
  destruct (literal_is_passed_unchanged echo_tool "literal" ∅
              literal_store literal_workflow literal_run.1 literal_run.2 0
              (mk_step "T" (<["x" := VStr "{open"]> {["n" := VInt 5]}))
              (<["x" := VStr "{open"]> {["n" := VInt 5]})
              (Call "T" (<["x" := VStr "{open"]> {["n" := VInt 5]})
                 (inr (VStr "{open")))
              "x" (VStr "{open")) as [Hx Hout];
    try (vm_compute; reflexivity).
  - intros str [= <-]. vm_compute; reflexivity.
  - split; [exact Hx|]. rewrite Hout. vm_compute; reflexivity.
Defined.

Example literal_number_is_passed_unchanged :
  (new_calls literal_store literal_run.2 !! 0) ≫=
    (λ c, call_params c !! "n") = Some (VInt 5).
Proof. vm_compute; reflexivity. Qed.

Lemma empty_braces_are_a_placeholder_witness :
  ∃ c, new_calls braces_store braces_run.2 !! 0 = Some c
    ∧ call_params c !! "x" = Some (VInt 7)
    ∧ call_outcome c = inr (VInt 7).
Proof.
  exists (Call "T" {["x" := VInt 7]} (inr (VInt 7))).
  split; [vm_compute; reflexivity|].
  pose proof (empty_braces_are_a_placeholder echo_tool "braces"
                braces_context braces_store braces_workflow
                braces_run.1 braces_run.2 0
                (mk_step "T" {["x" := VStr "{}"]}) {["x" := VStr "{}"]}
                (Call "T" {["x" := VInt 7]} (inr (VInt 7))) "x") as H.
  cbv zeta in H.
  destruct H as (Hx & _ & _ & Hout); [vm_compute; reflexivity ..|].
  split; [rewrite Hx|rewrite Hout]; vm_compute; reflexivity.
Defined.

(** With no empty key anywhere, the two braces leave the parameter out. *)
Example empty_braces_are_dropped :
  call_params <$>
    new_calls braces_store
      (execute_workflow echo_tool "braces" ∅ braces_store).2 !! 0 = Some ∅.
Proof. vm_compute; reflexivity. Qed.

Example twice_run_keeps_the_later_result :
  (new_calls twice_store twice_run.2 !! 0) ≫= (λ c, Some (call_outcome c))
    = Some (inr (VInt 0))
  ∧ returned twice_run !! "A" = Some (VInt 2).
Proof. split; vm_compute; reflexivity. Qed.

Lemma same_tool_twice_keeps_the_later_result_witness :
  new_calls twice_store twice_run.2 !! 0 = Some (Call "A" ∅ (inr (VInt 0)))
  ∧ new_calls twice_store twice_run.2 !! 2 = Some (Call "A" ∅ (inr (VInt 2)))
  ∧ returned twice_run !! "A" = Some (VInt 2)
  ∧ (counting_tool "A" ∅ 2).1 = inr (VInt 2).
Proof.
  destruct (same_tool_twice_keeps_the_later_result counting_tool "twice" ∅
              twice_store twice_workflow (returned twice_run) twice_run.2
              0 2 (mk_step "A" ∅) (mk_step "A" ∅) "A")
    as (c1 & c2 & v1 & v2 & H1 & _ & Ho1 & H2 & _ & Ho2 & Hres & _ & Hv2);
    try (vm_compute; reflexivity).
  - lia.
  - intros [|[|[|k]]] s Hk Hs; try lia. discriminate Hs.
  - assert (new_calls twice_store twice_run.2 !! 0 =
            Some (Call "A" ∅ (inr (VInt 0)))) as E1
      by (vm_compute; reflexivity).
    assert (new_calls twice_store twice_run.2 !! 2 =
            Some (Call "A" ∅ (inr (VInt 2)))) as E2
      by (vm_compute; reflexivity).
    rewrite E2 in H2. injection H2 as <-.
    simpl in Ho2. injection Ho2 as <-.
    split_and!; [exact E1|exact E2|exact Hres|].
    rewrite <- Hv2. vm_compute; reflexivity.
Defined.

(** The workflow [twice], of three steps, is replaced by the two steps of
    [chain]: the run that follows calls A and B, B with what A returned. *)
Lemma register_stores_and_replaces_witness :
  let st1 := with_workflows (<["twice" := chain_workflow]>
                               (workflows twice_store)) twice_store in
  let run := execute_workflow answer_tool "twice" ∅ st1 in
  handle_call_tool answer_tool opaque_repr "create_custom_workflow"
    swap_arguments twice_store =
    (inr [Text "text" ("Created workflow: " +:+ "twice")], st1)
  ∧ length (new_calls st1 run.2) = 2
  ∧ returned run = record_all (new_calls st1 run.2) ∅
  ∧ new_calls st1 run.2 !! 1
    = Some (Call "B" {["x" := VInt 42]} (inr (VInt 42)))
  ∧ world run.2 = 2.
Proof.
  intros st1 run.
  pose proof (register_stores_and_replaces answer_tool opaque_repr
                "twice" chain_workflow twice_store swap_arguments) as H.
  cbv zeta in H.
  destruct H as (Hcall & _ & _ & _ & _ & Hrun & _); [reflexivity ..|].
  destruct (Hrun ∅ run.1 run.2) as (_ & Hworld & _ & Hret).
  { vm_compute; reflexivity. }
  destruct (Hret (returned run)) as [Hlen Hres];
    [vm_compute; reflexivity|].
  split_and!.
  - exact Hcall.
  - exact Hlen.
  - exact Hres.
  - vm_compute; reflexivity.
  - rewrite Hworld. vm_compute; reflexivity.
Defined.

(** The same registration seen from the old definition: the third step of
    the old list is not run any more. *)
Example replaced_workflow_runs_the_new_steps :
  let st1 := (handle_call_tool answer_tool opaque_repr
                "create_custom_workflow" swap_arguments twice_store).2 in
  call_tool <$> new_calls twice_store
                  (execute_workflow answer_tool "twice" ∅ twice_store).2
    = ["A"; "B"; "A"]
  ∧ call_tool <$> new_calls st1
                    (execute_workflow answer_tool "twice" ∅ st1).2
    = ["A"; "B"].
Proof. split; vm_compute; reflexivity. Qed.

(** A list whose one step has no field is stored all the same; the run
    that follows raises on the first field it reads. *)
Example step_without_fields_is_registered :
  let st1 := (handle_call_tool counting_tool opaque_repr
                "create_custom_workflow" replace_arguments initial_store).2 in
  let run := execute_workflow counting_tool "morning_briefing" ∅ st1 in
  run.1 = inl (KeyError "params") ∧ new_calls st1 run.2 = [].
Proof. split; vm_compute; reflexivity. Qed.

(** A JSON list with a step whose [params] is [null] is stored by line 127
    as any other value; it is not of the schema's types, and reads as no
    list of steps. *)
Example ill_typed_steps_are_stored :
  let v := VList [VDict (<["tool" := VStr "B"]> {["params" := VNone]})] in
  register_json "w" v ∅ !! "w" = Some v ∧ steps_of_json v = None.
Proof. split; vm_compute; reflexivity. Qed.

Example steps_read_back :
  steps_of_json (json_of_steps chain_workflow) = Some chain_workflow.
Proof. apply steps_of_json_of_steps. Qed.

(** ** Placeholders and identifiers *)

Lemma substring_0_app (a b : string) :
  String.substring 0 (String.length a) (a +:+ b) = a.
Proof. induction a as [|c a IH]; simpl; [by destruct b|by rewrite IH]. Qed.

Lemma substring_0_all (b : string) :
  String.substring 0 (String.length b) b = b.
Proof. induction b as [|c b IH]; simpl; [done|by rewrite IH]. Qed.

Lemma substring_app_end (a b : string) :
  String.substring (String.length a) (String.length b) (a +:+ b) = b.
Proof. induction a as [|c a IH]; simpl; [apply substring_0_all|done]. Qed.

Lemma string_length_app (a b : string) :
  String.length (a +:+ b) = String.length a + String.length b.
Proof. induction a as [|c a IH]; simpl; [done|by rewrite IH]. Qed.

Lemma string_app_cons c (a b : string) : String c a +:+ b = String c (a +:+ b).
Proof. reflexivity. Qed.

Lemma string_app_nil (b : string) : "" +:+ b = b.
Proof. reflexivity. Qed.

Lemma prefix_one a b (t : string) :
  String.prefix (String a "") (String b t) = true → a = b.
Proof.
  change (String.prefix (String a "") (String b t))
    with (if Ascii.ascii_dec a b then String.prefix "" t else false).
  by destruct (Ascii.ascii_dec a b).
Qed.

(** A string splits at any position within it. *)
Lemma substring_split (s : string) n :
  n ≤ String.length s →
  s = String.substring 0 n s
      +:+ String.substring n (String.length s - n) s.
Proof.
  revert n. induction s as [|c s IH]; intros [|n] Hn; simpl in *;
    try lia; try done.
  - by rewrite substring_0_all.
  - change (String c s = String c (String.substring 0 n s
             +:+ String.substring n (String.length s - n) s)).
    f_equal. apply IH. lia.
Qed.

(** X1. Every string is an identifier one can name: wrapped in braces it
    passes the two tests of line 45, and line 46 gives it back.  So the
    empty key and keys that themselves hold braces can be referred to. *)
Theorem braces_round_trip (id : string) :
  Str.startswith ("{" +:+ id +:+ "}") "{" = true
  ∧ Str.endswith ("{" +:+ id +:+ "}") "}" = true
  ∧ Str.strip_ends ("{" +:+ id +:+ "}") = id.
Proof.
  remember (id +:+ "}") as t eqn:Ht.
  assert (String.length t = String.length id + 1) as Hlen
    by (subst t; apply string_length_app).
  rewrite string_app_cons, string_app_nil.
  split_and!.
  - unfold Str.startswith. simpl. by destruct t.
  - unfold Str.endswith. cbn [String.length]. rewrite Hlen.
    rewrite bool_decide_eq_true_2 by lia.
    replace (S (String.length id + 1) - 1) with (S (String.length id))
      by lia.
    cbn [String.substring]. subst t.
    change 1 with (String.length "}").
    by rewrite substring_app_end.
  - unfold Str.strip_ends. cbn [String.length]. rewrite Hlen.
    replace (S (String.length id + 1) - 2) with (String.length id) by lia.
    cbn [String.substring]. subst t.
    apply substring_0_app.
Qed.

(** X2. A string that passes the two tests of line 45 is its inner text of
    line 46 between two braces: nothing else counts as a placeholder. *)
Theorem placeholder_is_braced (s : string) :
  Str.startswith s "{" = true →
  Str.endswith s "}" = true →
  s = "{" +:+ Str.strip_ends s +:+ "}".
Proof.
  unfold Str.startswith, Str.endswith, Str.strip_ends.
  destruct s as [|c t]; [done|].
  intros <-%prefix_one [Hlen Heq%String.eqb_eq]%andb_prop.
  rewrite string_app_cons, string_app_nil. f_equal.
  cbn [String.length String.substring] in *.
  destruct t as [|c' t']; [done|].
  set (t := String c' t') in *.
  destruct (String.length t) as [|n] eqn:Hn; [done|].
  replace (S (S n) - 2) with n by lia.
  rewrite <- Heq.
  rewrite (substring_split t n) at 1 by lia.
  by replace (String.length t - n) with 1 by lia.
Qed.

Lemma placeholder_is_braced_witness :
  "{arxiv_results}" = "{" +:+ Str.strip_ends "{arxiv_results}" +:+ "}".
Proof. apply placeholder_is_braced; reflexivity. Defined.

(** ** The parameters a tool is handed *)

(** X3. The dict a tool is handed has no key that the step's [params] does
    not have: resolution binds or drops parameters and adds none. *)
Theorem resolve_params_adds_no_key (ctx results step_params : dict) :
  dom (resolve_params ctx results step_params) ⊆ dom step_params.
Proof.
  intros k. rewrite !elem_of_dom, resolve_params_lookup.
  destruct (step_params !! k); simpl; [eauto|by intros [? ?]].
Qed.

(** X4. When no value of the step's [params] is a string in braces, the
    tool is handed a dict equal to [params], whatever the context and the
    results hold. *)
Theorem resolve_params_of_literals (ctx results step_params : dict) :
  (∀ k s, step_params !! k = Some (VStr s) →
          Str.startswith s "{" && Str.endswith s "}" = false) →
  resolve_params ctx results step_params = step_params.
Proof.
  intros Hlit. apply map_eq. intros k. rewrite resolve_params_lookup.
  destruct (step_params !! k) as [v|] eqn:Hk; [|done]. simpl.
  destruct v as [| | | |s| |]; try done.
  simpl. by rewrite (Hlit k s Hk).
Qed.

Lemma resolve_params_of_literals_witness :
  resolve_params braces_context {["A" := VInt 1]}
    (<["x" := VStr "{open"]> {["n" := VInt 5]}) =
  <["x" := VStr "{open"]> {["n" := VInt 5]}.
Proof.
  apply resolve_params_of_literals.
  intros k s Hk.
  destruct (decide (k = "x")) as [->|Hx].
  - rewrite lookup_insert_eq in Hk. injection Hk as <-. reflexivity.
  - rewrite lookup_insert_ne in Hk by done.
    destruct (decide (k = "n")) as [->|Hn].
    + by rewrite lookup_singleton_eq in Hk.
    + by rewrite lookup_singleton_ne in Hk.
Defined.

(** ** More on the run *)

Section MoreRun.
Context {World ToolExn : Type}.
Variable execute_tool : string → dict → World → (ToolExn + value) * World.

Local Abbreviation store := (@store World ToolExn).
Local Abbreviation call := (@call ToolExn).
Local Abbreviation exn := (@exn ToolExn).

(** How the loop can raise: with the exception of its last call, or with
    the [KeyError] of the field that the step it stopped at lacks. *)
Lemma run_steps_raises workflow : ∀ (results : dict) (st : store) err st',
  run_steps execute_tool workflow results st = (inl err, st') →
  ∃ new, calls st' = calls st ++ new
    ∧ ((∃ c e, last new = Some c ∧ call_outcome c = inl e
          ∧ err = ToolFailure e)
       ∨ (∃ s, workflow !! length new = Some s
            ∧ ((params s = None ∧ err = KeyError "params")
               ∨ (is_Some (params s) ∧ tool s = None
                  ∧ err = KeyError "tool")))).
Proof.
  induction workflow as [|s rest IH]; intros results st err st' Hrun.
  - by rewrite run_steps_nil in Hrun.
  - rewrite run_steps_cons, run_step_eq in Hrun.
    destruct (params s) as [sp|] eqn:Hsp; cycle 1.
    { injection Hrun as <- <-. exists []. rewrite app_nil_r.
      split; [done|]. right. exists s. auto. }
    destruct (tool s) as [t|] eqn:Ht; cycle 1.
    { injection Hrun as <- <-. exists []. rewrite app_nil_r.
      split; [done|]. right. exists s. rewrite Hsp. eauto 10. }
    simpl in Hrun.
    destruct (execute_tool t _ (world st)) as [[e|v] w] eqn:Hcall.
    + injection Hrun as <- <-.
      exists [Call t (resolve_params (context st) results sp) (inl e)].
      split; [done|]. left. eauto.
    + apply IH in Hrun as (new & Hcalls & Hwhy). simpl in *.
      set (c := Call t (resolve_params (context st) results sp) (inr v)) in *.
      exists (c :: new). split; [by rewrite Hcalls, <- app_assoc|].
      destruct Hwhy as [(c' & e & Hlast & Ho & ->)|Hstep]; [left|by right].
      exists c', e. split_and!; try done.
      destruct new as [|c0 new0]; [done|]. by rewrite last_cons, Hlast.
Qed.

Lemma record_mono (c : call) (base : dict) A :
  is_Some (base !! A) → is_Some (record base c !! A).
Proof.
  unfold record. destruct (call_outcome c); [done|].
  intros Hb. rewrite lookup_insert. by case_decide.
Qed.

Lemma record_all_mono (cs : list call) (base : dict) A :
  is_Some (base !! A) → is_Some (record_all cs base !! A).
Proof.
  revert base. induction cs as [|c cs IH]; intros base Hb; [done|].
  rewrite record_all_cons. by apply IH, record_mono.
Qed.

(** A call that returned leaves an entry for its tool. *)
Lemma record_all_is_Some (cs : list call) (base : dict) c v :
  c ∈ cs → call_outcome c = inr v →
  is_Some (record_all cs base !! call_tool c).
Proof.
  revert base. induction cs as [|c0 cs IH]; intros base Hin Ho.
  - by apply not_elem_of_nil in Hin.
  - rewrite record_all_cons.
    apply elem_of_cons in Hin as [<-|Hin]; [|by apply IH].
    apply record_all_mono. unfold record. rewrite Ho.
    rewrite lookup_insert_eq. eauto.
Qed.

(** An entry comes from the start or from a call to the tool. *)
Lemma record_all_lookup_Some (cs : list call) (base : dict) A v :
  record_all cs base !! A = Some v →
  base !! A = Some v ∨ ∃ c, c ∈ cs ∧ call_tool c = A.
Proof.
  revert base. induction cs as [|c cs IH]; intros base Hv; [by left|].
  rewrite record_all_cons in Hv.
  destruct (IH _ Hv) as [Hb|(c' & Hin & Htool)].
  - unfold record in Hb. destruct (call_outcome c); [by left|].
    rewrite lookup_insert in Hb. case_decide; [|by left].
    right. exists c. split; [left|done].
  - right. exists c'. split; [by right|done].
Qed.

(** How a run of a registered workflow can raise. *)
Lemma execute_workflow_raises
    name (ctx : dict) (st : store) workflow err st' :
  workflows st !! name = Some workflow →
  execute_workflow execute_tool name ctx st = (inl err, st') →
  (∃ c e, last (new_calls st st') = Some c ∧ call_outcome c = inl e
     ∧ err = ToolFailure e)
  ∨ (∃ s, workflow !! length (new_calls st st') = Some s
       ∧ ((params s = None ∧ err = KeyError "params")
          ∨ (is_Some (params s) ∧ tool s = None
             ∧ err = KeyError "tool"))).
Proof.
  intros Hname Hrun. rewrite execute_workflow_eq, Hname in Hrun.
  destruct (run_steps_raises _ _ _ _ _ Hrun) as (new & Hcalls & Hwhy).
  by rewrite (new_calls_app st st' new).
Qed.

(** A run of a registered workflow returns when its steps have their
    fields and the tools they name return. *)
Lemma execute_workflow_returns name (ctx : dict) (st : store) workflow :
  workflows st !! name = Some workflow →
  (∀ s, s ∈ workflow → well_formed s = true) →
  (∀ s t p w, s ∈ workflow → tool s = Some t →
     ∃ v, (execute_tool t p w).1 = inr v) →
  ∃ results st',
    execute_workflow execute_tool name ctx st = (inr results, st').
Proof.
  intros Hname Hwf Htotal.
  destruct (execute_workflow execute_tool name ctx st)
    as [[err|results] st'] eqn:Hrun; [exfalso|eauto].
  destruct (execute_workflow_log _ _ _ _ _ _ _ Hname Hrun)
    as (_ & _ & _ & _ & Hpar & _).
  destruct (execute_workflow_raises _ _ _ _ _ _ Hname Hrun)
    as [(c & e & Hlast & Ho & _)|(s & Hs & Hmiss)].
  - rewrite last_lookup in Hlast.
    destruct (Hpar _ _ Hlast) as (s & sp & Hs & Htool & _).
    destruct (execute_workflow_replay _ _ _ _ _ _ Hrun) as [_ Hout].
    rewrite (Hout _ _ Hlast) in Ho.
    destruct (Htotal s (call_tool c) (call_params c)
                (replay execute_tool (world st)
                   (take (pred (length (new_calls st st')))
                      (new_calls st st'))))
      as [v Hv]; [by eapply list_elem_of_lookup_2|done|congruence].
  - assert (well_formed s = true) as Hok
      by (apply Hwf; by eapply list_elem_of_lookup_2).
    unfold well_formed in Hok.
    destruct Hmiss as [[Hp _]|(_ & Ht & _)].
    + by rewrite Hp in Hok.
    + rewrite Ht in Hok. by destruct (params s).
Qed.

(** X5. The keys of the dict a run returns are the tools its steps name:
    every tool named has an entry, however often it is named, and nothing
    else has. *)
Theorem returned_keys_are_the_tools
    name (ctx : dict) (st : store) workflow (results : dict) st' A :
  workflows st !! name = Some workflow →
  execute_workflow execute_tool name ctx st = (inr results, st') →
  is_Some (results !! A) ↔ ∃ i s, workflow !! i = Some s ∧ tool s = Some A.
Proof.
  intros Hname Hrun.
  destruct (returning_run_log _ _ _ _ _ _ _ Hname Hrun)
    as (_ & _ & Hstep & ->).
  destruct (execute_workflow_log _ _ _ _ _ _ _ Hname Hrun)
    as (_ & _ & _ & _ & Hpar & _).
  split.
  - intros [v Hv].
    destruct (record_all_lookup_Some _ _ _ _ Hv)
      as [Hb|(c & [i Hi]%list_elem_of_lookup_1 & <-)]; [done|].
    destruct (Hpar i c Hi) as (s & _ & Hs & Htool & _). eauto.
  - intros (i & s & Hs & Htool).
    destruct (Hstep i s Hs) as (c & Hc & Htool' & v & Ho).
    assert (A = call_tool c) as -> by congruence.
    eapply record_all_is_Some; [|done]. by eapply list_elem_of_lookup_2.
Qed.

(** X6. A placeholder resolves from the results only when an earlier step
    names its inner text as tool: when the context does not bind it and no
    step before step [i] names it, call [i] is handed no entry for the
    parameter, even if step [i] itself or a later step names it. *)
Theorem forward_reference_is_dropped
    name (ctx : dict) (st : store) workflow r st' i s sp c key str :
  workflows st !! name = Some workflow →
  execute_workflow execute_tool name ctx st = (r, st') →
  workflow !! i = Some s →
  params s = Some sp →
  new_calls st st' !! i = Some c →
  sp !! key = Some (VStr str) →
  Str.startswith str "{" = true →
  Str.endswith str "}" = true →
  ctx !! Str.strip_ends str = None →
  (∀ j s', j < i → workflow !! j = Some s' →
           tool s' ≠ Some (Str.strip_ends str)) →
  call_params c !! key = None.
Proof.
  intros Hname Hrun Hs Hsp Hc Hkey Hopen Hclose Hctx Hearlier.
  rewrite (call_params_lookup _ _ _ _ _ _ _ _ _ _ _ key Hname Hrun Hs Hsp Hc).
  rewrite Hkey. simpl. rewrite Hopen, Hclose, Hctx. simpl.
  rewrite record_all_other; [done|].
  intros c' [j Hj]%list_elem_of_lookup_1 Htool.
  apply lookup_take_Some in Hj as [Hj Hlt].
  destruct (execute_workflow_log _ _ _ _ _ _ _ Hname Hrun)
    as (_ & _ & _ & _ & Hpar & _).
  destruct (Hpar j c' Hj) as (s' & _ & Hs' & Htool' & _).
  apply (Hearlier j s' Hlt Hs'). congruence.
Qed.

(** X7. On input of the types the schema and the signature declare (a
    step's [tool] a string and its [params] an object, either possibly
    missing; the context a dict), a run of a registered workflow raises in
    two ways only: with the exception its last call raised, or with the
    [KeyError] of the field that the step it stopped at lacks, ["params"]
    being looked at before ["tool"].  A field or a context of another JSON
    type is outside the records of this file, and outside this statement. *)
Theorem run_raises_only
    name (ctx : dict) (st : store) workflow err st' :
  workflows st !! name = Some workflow →
  execute_workflow execute_tool name ctx st = (inl err, st') →
  (∃ c e, last (new_calls st st') = Some c ∧ call_outcome c = inl e
     ∧ err = ToolFailure e)
  ∨ (∃ s, workflow !! length (new_calls st st') = Some s
       ∧ ((params s = None ∧ err = KeyError "params")
          ∨ (is_Some (params s) ∧ tool s = None
             ∧ err = KeyError "tool"))).
Proof. apply execute_workflow_raises. Qed.

(** X8. When a run gets as far as a step that lacks a field, it raises the
    [KeyError] of that field without calling the step's tool: the calls of
    the steps before it stay made, and no later step is looked at. *)
Theorem step_without_field_stops_the_run
    name (ctx : dict) (st : store) workflow r st' i s :
  workflows st !! name = Some workflow →
  execute_workflow execute_tool name ctx st = (r, st') →
  workflow !! i = Some s →
  well_formed s = false →
  i ≤ length (new_calls st st') →
  forallb succeeded (take i (new_calls st st')) = true →
  length (new_calls st st') = i
  ∧ r = inl (match params s with
             | None => KeyError "params"
             | Some _ => KeyError "tool"
             end).
Proof.
  intros Hname Hrun Hs Hbad Hi Hok.
  destruct (execute_workflow_log _ _ _ _ _ _ _ Hname Hrun)
    as (_ & _ & _ & _ & Hpar & _ & Hret & _).
  assert (length (new_calls st st') = i) as Hlen.
  { destruct (decide (length (new_calls st st') = i)) as [|Hne]; [done|].
    destruct (lookup_lt_is_Some_2 (new_calls st st') i) as [c Hc]; [lia|].
    destruct (Hpar i c Hc) as (s' & sp & Hs' & Htool & Hsp & _).
    rewrite Hs in Hs'. injection Hs' as <-.
    unfold well_formed in Hbad. by rewrite Hsp, Htool in Hbad. }
  split; [done|].
  destruct r as [err|results].
  - destruct (execute_workflow_raises _ _ _ _ _ _ Hname Hrun)
      as [(c & e & Hlast & Ho & _)|(s' & Hs' & Hmiss)].
    + exfalso. rewrite take_ge, forallb_forall in Hok by lia.
      assert (succeeded c = true) as Hc;
        [|unfold succeeded in Hc; by rewrite Ho in Hc].
      apply Hok, list_elem_of_In.
      rewrite last_lookup in Hlast. by eapply list_elem_of_lookup_2.
    + rewrite Hlen, Hs in Hs'. injection Hs' as <-.
      destruct Hmiss as [[-> ->]|([sp ->] & _ & ->)]; done.
  - exfalso. destruct (Hret results eq_refl) as [Hn _].
    apply lookup_lt_Some in Hs. lia.
Qed.

(** X9. A run acts on the world through its calls only and in their order:
    the world it leaves is the world of its calls replayed from the world
    it started in, and the outcome logged for a call is what
    [execute_tool] gave in the world the calls before it left. *)
Theorem run_replays_the_tool name (ctx : dict) (st : store) :
  let st' := (execute_workflow execute_tool name ctx st).2 in
  world st' = replay execute_tool (world st) (new_calls st st')
  ∧ ∀ i c, new_calls st st' !! i = Some c →
      call_outcome c =
      (execute_tool (call_tool c) (call_params c)
         (replay execute_tool (world st) (take i (new_calls st st')))).1.
Proof.
  simpl. apply (execute_workflow_replay execute_tool name ctx st
                  (execute_workflow execute_tool name ctx st).1).
  by destruct (execute_workflow execute_tool name ctx st).
Qed.

(** X10. On input of the types the schema and the signature declare (a
    step's [tool] a string and its [params] an object; the context a
    dict), a run of a registered workflow returns a dict whenever every
    step has its two fields and the tools the steps name return on every
    input.  A field or a context of another JSON type is outside the
    records of this file, and outside this statement. *)
Theorem well_formed_run_returns
    name (ctx : dict) (st : store) workflow :
  workflows st !! name = Some workflow →
  (∀ s, s ∈ workflow → well_formed s = true) →
  (∀ s t p w, s ∈ workflow → tool s = Some t →
     ∃ v, (execute_tool t p w).1 = inr v) →
  ∃ results st',
    execute_workflow execute_tool name ctx st = (inr results, st').
Proof. apply execute_workflow_returns. Qed.

(** X19. A workflow registered with no step runs to the empty dict: no
    tool is called and the world is left as it was. *)
Theorem empty_workflow_returns_empty name (ctx : dict) (st : store) :
  workflows st !! name = Some [] →
  ∃ st', execute_workflow execute_tool name ctx st = (inr ∅, st')
    ∧ new_calls st st' = []
    ∧ world st' = world st.
Proof.
  intros Hname. exists (entry_store ctx st).
  rewrite execute_workflow_eq, Hname, run_steps_nil.
  split_and!; try done.
  apply new_calls_app. simpl. by rewrite app_nil_r.
Qed.

End MoreRun.

(** ** The handler *)

Section MoreHandler.
Context {World ToolExn : Type}.
Variable execute_tool : string → dict → World → (ToolExn + value) * World.
Variable repr : dict → string.

Local Abbreviation store := (@store World ToolExn).
Local Abbreviation handle := (handle_call_tool execute_tool repr).

Lemma execute_workflow_keeps_registry name (ctx : dict) (st : store) :
  workflows (execute_workflow execute_tool name ctx st).2 = workflows st.
Proof.
  destruct (workflows st !! name) as [workflow|] eqn:Hname.
  - destruct (execute_workflow execute_tool name ctx st) as [r st'] eqn:Hrun.
    by destruct (execute_workflow_log _ _ _ _ _ _ _ Hname Hrun)
      as (_ & Hwf & _).
  - by rewrite execute_workflow_eq, Hname.
Qed.

Lemma advertised_eq : advertised = ["execute_workflow"; "create_custom_workflow"].
Proof. reflexivity. Qed.

(** X12. A name that [handle_list_tools] does not advertise is answered,
    not refused: the handler returns the one text that names it, raises
    nothing and leaves the store as it was. *)
Theorem unadvertised_tool_is_answered name args (st : store) :
  name ∉ advertised →
  handle name args st = (inr [Text "text" ("Unknown tool: " +:+ name)], st).
Proof.
  rewrite advertised_eq. intros Hname.
  apply not_elem_of_cons in Hname as [H1 Hname].
  apply not_elem_of_cons in Hname as [H2 _].
  unfold handle_call_tool.
  apply String.eqb_neq in H1, H2. by rewrite H1, H2.
Qed.

(** X13. Only [create_custom_workflow] writes to the registry: after any
    other call, however it ends, the registry is the one before it. *)
Theorem only_create_writes_the_registry name args (st : store) :
  name ≠ "create_custom_workflow" →
  workflows (handle name args st).2 = workflows st.
Proof.
  intros Hname. unfold handle_call_tool.
  destruct (String.eqb_spec name "execute_workflow") as [->|_].
  - destruct (arg_workflow args) as [w|]; [|done]. simpl.
    unfold mbind, M_bind, bind, ret. simpl.
    pose proof (execute_workflow_keeps_registry w
                  (default ∅ (arg_context args)) st) as Hreg.
    by destruct (execute_workflow execute_tool w _ st) as [[e|res] st'].
  - apply String.eqb_neq in Hname. by rewrite Hname.
Qed.

(** X14. The handler catches nothing.  An [execute_workflow] call for a
    name that is not registered raises the [ValueError] of the run, with
    no tool called; and whenever the run raises, the handler raises the
    same exception and returns no text. *)
Theorem handler_raises_what_the_run_raises w args (st : store) :
  arg_workflow args = Some w →
  (workflows st !! w = None →
   handle "execute_workflow" args st =
     (inl (ValueError ("Unknown workflow: " +:+ w)),
      entry_store (default ∅ (arg_context args)) st))
  ∧ (∀ e st',
       execute_workflow execute_tool w (default ∅ (arg_context args)) st =
         (inl e, st') →
       handle "execute_workflow" args st = (inl e, st')).
Proof.
  intros Hw.
  assert (∀ e st',
       execute_workflow execute_tool w (default ∅ (arg_context args)) st =
         (inl e, st') →
       handle "execute_workflow" args st = (inl e, st')) as Hraise.
  { intros e st' Hrun. unfold handle_call_tool. simpl. rewrite Hw. simpl.
    unfold mbind, M_bind, bind, ret. simpl. by rewrite Hrun. }
  split; [|done].
  intros Hnone. apply Hraise. by rewrite execute_workflow_eq, Hnone.
Qed.

(** X15. A call that lacks an argument raises the [KeyError] of that
    argument and leaves the store as it was.  For
    [create_custom_workflow] the steps are read before the name: a call
    without steps raises for ["steps"] whether or not it has a name. *)
Theorem missing_argument_raises a b n steps w (st : store) :
  handle "execute_workflow" (Arguments None b n a) st =
    (inl (KeyError "workflow"), st)
  ∧ handle "create_custom_workflow" (Arguments w b n None) st =
      (inl (KeyError "steps"), st)
  ∧ handle "create_custom_workflow" (Arguments w b None (Some steps)) st =
      (inl (KeyError "name"), st).
Proof. done. Qed.

(** X16. Registering a name twice leaves what registering it the second
    time alone leaves: the store keeps no trace of the first list. *)
Theorem registering_twice_is_registering_last
    a b a' b' n steps1 steps2 (st : store) :
  let st1 := (handle "create_custom_workflow"
                (Arguments a b (Some n) (Some steps1)) st).2 in
  handle "create_custom_workflow"
    (Arguments a' b' (Some n) (Some steps2)) st1 =
  handle "create_custom_workflow"
    (Arguments a' b' (Some n) (Some steps2)) st.
Proof.
  simpl. unfold handle_call_tool, mbind, M_bind, bind, set_workflow; simpl.
  by rewrite insert_insert_eq.
Qed.

(** The loop reads the registry nowhere: with another registry in the
    store it does the same. *)
Lemma run_steps_with_workflows registry workflow :
  ∀ (results : dict) (st : store),
  run_steps execute_tool workflow results (with_workflows registry st) =
  ((run_steps execute_tool workflow results st).1,
   with_workflows registry (run_steps execute_tool workflow results st).2).
Proof.
  induction workflow as [|s rest IH]; intros results st; [done|].
  rewrite !run_steps_cons, !run_step_eq.
  destruct (params s) as [sp|]; [|done].
  destruct (tool s) as [t|]; [|done]. simpl.
  destruct (execute_tool t _ (world st)) as [[e|v] w]; [done|].
  apply (IH _ {| workflows := workflows st; context := context st;
                 world := w; calls := _ |}).
Qed.

(** X17. Registering a workflow changes no other workflow: a run of
    another name ends the same way, with the same calls and the same
    world, after the registration as before it. *)
Theorem registering_leaves_other_runs
    a b n steps m (ctx : dict) (st : store) :
  m ≠ n →
  let st1 := (handle "create_custom_workflow"
                (Arguments a b (Some n) (Some steps)) st).2 in
  let run := execute_workflow execute_tool m ctx st in
  let run1 := execute_workflow execute_tool m ctx st1 in
  run1.1 = run.1
  ∧ world run1.2 = world run.2
  ∧ new_calls st1 run1.2 = new_calls st run.2.
Proof.
  intros Hne st1 run run1. subst run run1.
  assert (st1 = with_workflows (<[n:=steps]> (workflows st)) st) as ->
    by done.
  rewrite !execute_workflow_eq.
  change (workflows (with_workflows (<[n:=steps]> (workflows st)) st))
    with (<[n:=steps]> (workflows st)).
  rewrite lookup_insert_ne by done.
  destruct (workflows st !! m) as [workflow|]; [|done].
  change (entry_store ctx (with_workflows (<[n:=steps]> (workflows st)) st))
    with (with_workflows (<[n:=steps]> (workflows st)) (entry_store ctx st)).
  by rewrite run_steps_with_workflows.
Qed.

(** X18. The workflow names that the schema of [execute_workflow] admits
    are the names [__init__] registers, no more and no fewer; so a call
    the schema admits does not raise the [ValueError] of an unknown
    workflow while the built-in names stay registered. *)
Theorem schema_names_are_the_builtin_workflows n :
  (n ∈ workflow_enum ↔ is_Some (builtin_workflows !! n))
  ∧ (n ∈ workflow_enum →
     ∀ (ctx : dict) (st : store) msg,
       builtin_workflows ⊆ workflows st →
       (execute_workflow execute_tool n ctx st).1 ≠ inl (ValueError msg)).
Proof.
  assert (workflow_enum =
          ["morning_briefing"; "deploy_checklist"; "research_assistant"])
    as Henum by (vm_compute; reflexivity).
  assert (n ∈ workflow_enum ↔ is_Some (builtin_workflows !! n)) as Hiff.
  { rewrite Henum. split.
    - rewrite !elem_of_cons, elem_of_nil.
      intros [->|[->|[->|[]]]]; vm_compute; eauto.
    - unfold builtin_workflows. intros [steps Hn].
      destruct (decide (n = "morning_briefing")) as [->|H1]; [by left|].
      rewrite lookup_insert_ne in Hn by done.
      destruct (decide (n = "deploy_checklist")) as [->|H2];
        [right; by left|].
      rewrite lookup_insert_ne in Hn by done.
      destruct (decide (n = "research_assistant")) as [->|H3];
        [right; right; by left|].
      by rewrite lookup_insert_ne in Hn by done. }
  split; [done|].
  intros [steps Hn]%Hiff ctx st msg Hsub Hrun.
  assert (workflows st !! n = Some steps) as Hreg
    by (by eapply lookup_weaken).
  destruct (execute_workflow execute_tool n ctx st) as [r st'] eqn:Hrun'.
  simpl in Hrun. subst r.
  destruct (execute_workflow_raises execute_tool _ _ _ _ _ _ Hreg Hrun')
    as [(c & e & _ & _ & ?)|(s & _ & [[_ ?]|(_ & _ & ?)])]; done.
Qed.

End MoreHandler.

(** ** More theorems at work *)

Lemma returned_keys_are_the_tools_witness :
  is_Some (returned twice_run !! "B")
  ↔ ∃ i s, twice_workflow !! i = Some s ∧ tool s = Some "B".
Proof.
  apply (returned_keys_are_the_tools counting_tool "twice" ∅ twice_store
           twice_workflow (returned twice_run) twice_run.2 "B");
    vm_compute; reflexivity.
Defined.

Lemma forward_reference_is_dropped_witness :
  call_params (Call (ToolExn := string) "A" ∅ (inr (VInt 0))) !! "x" = None.
Proof.
  apply (forward_reference_is_dropped counting_tool "forward" ∅
           forward_store forward_workflow forward_run.1 forward_run.2 0
           (mk_step "A" {["x" := VStr "{B}"]}) {["x" := VStr "{B}"]}
           (Call "A" ∅ (inr (VInt 0))) "x" "{B}");
    try (vm_compute; reflexivity).
  intros j s' Hj. lia.
Defined.

Example forward_run_calls :
  call_params <$> new_calls forward_store forward_run.2 = [∅; ∅].
Proof. vm_compute; reflexivity. Qed.

Lemma run_raises_only_witness :
  (∃ c e, last (new_calls abc_store abc_run.2) = Some c
     ∧ call_outcome c = inl e
     ∧ ToolFailure "failed: B" = ToolFailure e)
  ∨ (∃ s, abc_workflow !! length (new_calls abc_store abc_run.2) = Some s
       ∧ ((params s = None ∧ ToolFailure "failed: B" = KeyError "params")
          ∨ (is_Some (params s) ∧ tool s = None
             ∧ ToolFailure "failed: B" = KeyError "tool"))).
Proof.
  apply (run_raises_only (failing_tool "B") "abc" ∅ abc_store abc_workflow
           (ToolFailure "failed: B") abc_run.2);
    vm_compute; reflexivity.
Defined.

Lemma step_without_field_stops_the_run_witness :
  length (new_calls gap_store gap_run.2) = 1
  ∧ gap_run.1 = inl (KeyError "params").
Proof.
  apply (step_without_field_stops_the_run counting_tool "gap" ∅ gap_store
           gap_workflow gap_run.1 gap_run.2 1
           {| tool := Some "B"; params := None |});
    vm_compute; reflexivity.
Defined.

Lemma well_formed_run_returns_witness :
  ∃ results st',
    execute_workflow counting_tool "twice" ∅ twice_store =
      (inr results, st').
Proof.
  apply (well_formed_run_returns counting_tool "twice" ∅ twice_store
           twice_workflow).
  - vm_compute; reflexivity.
  - intros s Hs. unfold twice_workflow in Hs.
    rewrite !elem_of_cons, elem_of_nil in Hs.
    destruct Hs as [->|[->|[->|[]]]]; reflexivity.
  - intros s t p w _ _. eexists. reflexivity.
Defined.

Lemma unadvertised_tool_is_answered_witness :
  handle_call_tool counting_tool opaque_repr "delete_workflow"
    nope_arguments twice_store =
  (inr [Text "text" ("Unknown tool: " +:+ "delete_workflow")], twice_store).
Proof.
  apply unadvertised_tool_is_answered.
  change advertised with ["execute_workflow"; "create_custom_workflow"].
  apply not_elem_of_cons; split; [done|].
  apply not_elem_of_cons; split; [done|].
  apply not_elem_of_nil.
Defined.

Lemma only_create_writes_the_registry_witness :
  workflows (handle_call_tool counting_tool opaque_repr "execute_workflow"
               nope_arguments twice_store).2 = workflows twice_store.
Proof. apply only_create_writes_the_registry. done. Defined.

Lemma handler_raises_what_the_run_raises_witness :
  (workflows twice_store !! "nope" = None →
   handle_call_tool counting_tool opaque_repr "execute_workflow"
     nope_arguments twice_store =
     (inl (ValueError ("Unknown workflow: " +:+ "nope")),
      entry_store (default ∅ (arg_context nope_arguments)) twice_store))
  ∧ (∀ e st',
       execute_workflow counting_tool "nope"
         (default ∅ (arg_context nope_arguments)) twice_store = (inl e, st') →
       handle_call_tool counting_tool opaque_repr "execute_workflow"
         nope_arguments twice_store = (inl e, st')).
Proof. apply handler_raises_what_the_run_raises. reflexivity. Defined.

Lemma registering_leaves_other_runs_witness :
  let st1 := (handle_call_tool counting_tool opaque_repr
                "create_custom_workflow"
                (Arguments None None (Some "new") (Some abc_workflow))
                twice_store).2 in
  let run := execute_workflow counting_tool "twice" ∅ twice_store in
  let run1 := execute_workflow counting_tool "twice" ∅ st1 in
  run1.1 = run.1
  ∧ world run1.2 = world run.2
  ∧ new_calls st1 run1.2 = new_calls twice_store run.2.
Proof. apply registering_leaves_other_runs. done. Defined.

Lemma empty_workflow_returns_empty_witness :
  ∃ st', execute_workflow counting_tool "idle" ∅
           (store_of {["idle" := []]}) = (inr ∅, st')
    ∧ new_calls (store_of {["idle" := []]}) st' = []
    ∧ world st' = world (store_of {["idle" := []]}).
Proof.
  apply empty_workflow_returns_empty. vm_compute; reflexivity.
Defined.
